(** * Mastermind (project.py): scoring, feedback, code generation and the
      click-driven game session.

    Python integers are unbounded, so they are [Z]; a Python list is a
    [list]; [None] in a guess row is [None] of [option string]; an exception
    is a value of [exn] carried by [Raise]. *)

From stdpp Require Import gmap strings list pretty.
From Stdlib Require Import ZArith Lia.

Local Open Scope Z_scope.

(** ** Exceptions and the error monad *)

Inductive exn : Type :=
| ValueError (msg : string)
| IndexError (msg : string)
| KeyError (key : string)
| FileNotFoundError (path : string).

Inductive result (A : Type) : Type :=
| Ok (a : A)
| Raise (e : exn).

Arguments Ok {A} a.
Arguments Raise {A} e.

(** Sequencing: an exception raised by the first computation propagates. *)
#[global] Instance result_ret : MRet result := fun A a => Ok a.
#[global] Instance result_bind : MBind result := fun A B k r =>
  match r with
  | Ok a => k a
  | Raise e => Raise e
  end.

Definition raises {A : Type} (r : result A) : Prop :=
  match r with
  | Ok _ => False
  | Raise _ => True
  end.

(** ** Builtins used by the core logic *)

(** [sum(xs)]: left-to-right accumulation from 0. *)
Definition py_sum (xs : list Z) : Z := foldl Z.add 0 xs.

(** [len(xs)] *)
Definition len {A : Type} (xs : list A) : Z := Z.of_nat (length xs).

(** [xs.count(c)] *)
Definition py_count `{EqDecision A} (c : A) (xs : list A) : Z :=
  len (filter (fun x => x = c) xs).

(** [[x] * n]: a non-positive [n] gives the empty list. *)
Definition py_repeat {A : Type} (x : A) (n : Z) : list A :=
  replicate (Z.to_nat n) x.

(** ** Constants *)

Definition COLORS : list string :=
  ["#38ffff"; "#ff6a00"; "#ccf300"; "#ff5e9c"; "#5a7af5"; "#b277ff"]%string.

Definition CODE_LENGTH : Z := 4.
Definition MAX_TRIES : Z := 10.

(** ** check_guess

    The elements go into [set(guess)], so they are hashable: here, of a
    countable type with decidable equality. The order in which a Python set
    is iterated is unspecified; the sum does not depend on it. *)

Section scoring.
Context `{Countable A}.
Implicit Types (secret guess s g : list A) (c : A).

Definition check_guess secret guess : result (Z * Z) :=
  if decide (len secret <> len guess) then
    Raise (ValueError "Secret and guess must be same length")
  else
    let black :=
      py_sum ((fun sg => Z.b2z (bool_decide (sg.1 = sg.2))) <$> zip secret guess) in
    let total_matches :=
      py_sum ((fun c => Z.min (py_count c secret) (py_count c guess))
                <$> elements (list_to_set guess : gset A)) in
    let white := total_matches - black in
    Ok (black, white).

(** The scoring rule in the words of the specification: occurrences of a
    colour, positions where secret and guess agree, and the sum over the
    distinct colours of the guess. *)
Fixpoint occurrences (c : A) (xs : list A) : nat :=
  match xs with
  | [] => O
  | x :: xs' => ((if decide (x = c) then 1 else 0) + occurrences c xs')%nat
  end.

Definition exactMatches_spec (secret guess : list A) : nat :=
  length (filter (fun i => secret !! i = guess !! i) (seq 0 (length secret))).

Definition colorMatches_spec (secret guess : list A) : Z :=
  Z.of_nat (sum_list ((fun c => (occurrences c secret `min` occurrences c guess)%nat)
                        <$> remove_dups guess))
  - Z.of_nat (exactMatches_spec secret guess).

(** The two sums of [check_guess], named for the proofs. *)
Definition black_of s g : Z :=
  py_sum ((fun sg => Z.b2z (bool_decide (sg.1 = sg.2))) <$> zip s g).

Definition total_of s g : Z :=
  py_sum ((fun c => Z.min (py_count c s) (py_count c g))
            <$> elements (list_to_set g : gset A)).

(** Exact matches whose colour is [c]. *)
Definition black_at c s g : Z :=
  py_sum ((fun sg => if decide (sg.2 = c)
                     then Z.b2z (bool_decide (sg.1 = sg.2)) else 0) <$> zip s g).

End scoring.

(** ** format_feedback *)

Definition format_feedback (black white length : Z) : result (list string) :=
  if bool_decide (black < 0) || bool_decide (white < 0)
     || bool_decide (black + white > length) then
    Raise (ValueError "Invalid black/white counts")
  else
    Ok (py_repeat "black"%string black ++ py_repeat "white"%string white
        ++ py_repeat "empty"%string (length - black - white)).

(** ** generate_code

    The state of the [random] module is a tape of raw draws and a cursor;
    quantifying over tapes covers every outcome of the generator. *)

Record rng : Type := { draws : nat -> nat; cursor : nat }.

Definition randbelow (n : nat) (g : rng) : nat * rng :=
  ((draws g (cursor g) mod n)%nat,
   {| draws := draws g; cursor := S (cursor g) |}).

(** [random.choice(seq)]: IndexError on an empty sequence. *)
Definition random_choice {A : Type} (seq : list A) (g : rng) : result (A * rng) :=
  match seq with
  | [] => Raise (IndexError "Cannot choose from an empty sequence")
  | _ :: _ =>
      let '(i, g') := randbelow (length seq) g in
      match seq !! i with
      | Some x => Ok (x, g')
      | None => Raise (IndexError "list index out of range")
      end
  end.

(** [[random.choice(colors) for _ in range(n)]] *)
Fixpoint choices (colors : list string) (n : nat) (g : rng)
  : result (list string * rng) :=
  match n with
  | O => Ok ([], g)
  | S n' =>
      '(c, g1) ← random_choice colors g;
      '(cs, g2) ← choices colors n' g1;
      Ok (c :: cs, g2)
  end.

(** [range(length)] is empty for [length <= 0]. *)
Definition generate_code (colors : list string) (length : Z) (g : rng)
  : result (list string * rng) :=
  choices colors (Z.to_nat length) g.

(** ** List indexing as Python does it *)

Definition norm_index {A : Type} (xs : list A) (i : Z) : Z :=
  if bool_decide (i < 0) then i + len xs else i.

(** [xs[i]] *)
Definition py_getitem {A : Type} (xs : list A) (i : Z) : result A :=
  let j := norm_index xs i in
  if bool_decide (0 <= j < len xs) then
    match xs !! Z.to_nat j with
    | Some x => Ok x
    | None => Raise (IndexError "list index out of range")
    end
  else Raise (IndexError "list index out of range").

(** [xs[i] = x] *)
Definition py_setitem {A : Type} (xs : list A) (i : Z) (x : A) : result (list A) :=
  let j := norm_index xs i in
  if bool_decide (0 <= j < len xs) then Ok (<[Z.to_nat j := x]> xs)
  else Raise (IndexError "list assignment index out of range").

(** [xs.index(x)]: position of the first element equal to [x]; the text of
    the ValueError is not looked at by the one caller. *)
Fixpoint py_index `{EqDecision A} (x : A) (xs : list A) : result Z :=
  match xs with
  | [] => Raise (ValueError "x is not in list")
  | y :: ys =>
      if decide (y = x) then Ok 0
      else i ← py_index x ys; Ok (1 + i)
  end.

(** [x in xs] *)
Definition py_in `{EqDecision A} (x : A) (xs : list A) : bool :=
  bool_decide (x ∈ xs).

(** ** The window: game state and what is drawn

    Of the widgets only what carries information is kept: the fill colour of
    every peg, the status text, and the win and loss dialogs shown so far
    (title and message). A row is the dict built by [_create_rows]: [peg_fill] and
    [fb_fill] are the fills of the ovals listed in [peg_items] and
    [fb_items], in the same order. *)

Record row_state : Type := RowState {
  peg_fill : list string;
  guess_state : list (option string);
  fb_fill : list string;
  solved : bool
}.

Record gui : Type := Gui {
  secret : list string;
  current_try : Z;
  rows : list row_state;
  game_over : bool;
  status_label : string;
  dialogs : list (string * string)
}.

Definition with_guess (row : row_state) (pf : list string)
    (gs : list (option string)) : row_state :=
  RowState pf gs (fb_fill row) (solved row).

Definition with_fb (row : row_state) (ff : list string) : row_state :=
  RowState (peg_fill row) (guess_state row) ff (solved row).

Definition with_solved (row : row_state) (b : bool) : row_state :=
  RowState (peg_fill row) (guess_state row) (fb_fill row) b.

Definition with_rows (st : gui) (rs : list row_state) : gui :=
  Gui (secret st) (current_try st) rs (game_over st) (status_label st) (dialogs st).

Definition with_current_try (st : gui) (n : Z) : gui :=
  Gui (secret st) n (rows st) (game_over st) (status_label st) (dialogs st).

Definition with_game_over (st : gui) (b : bool) : gui :=
  Gui (secret st) (current_try st) (rows st) b (status_label st) (dialogs st).

Definition with_status (st : gui) (s : string) : gui :=
  Gui (secret st) (current_try st) (rows st) (game_over st) s (dialogs st).

Definition with_dialog (st : gui) (title msg : string) : gui :=
  Gui (secret st) (current_try st) (rows st) (game_over st) (status_label st)
      (dialogs st ++ [(title, msg)]).

Definition DISPLAY_NAMES : gmap string string :=
  list_to_map
    [("#38ffff", "Cyan"); ("#ff6a00", "Orange"); ("#ccf300", "Lime");
     ("#ff5e9c", "Pink"); ("#5a7af5", "Blue"); ("#b277ff", "Violet")]%string.

Definition LIGHTGRAY : string := "lightgray".

(** The newline character of the dialog texts. *)
Definition nl : string := String (Ascii.ascii_of_nat 10) EmptyString.

(** [for i in range(n)]: the body applied to 0, 1, ..., n-1 in turn. *)
Definition for_range {S : Type} (n : Z) (body : Z -> S -> S) (s : S) : S :=
  foldl (fun acc i => body i acc) s (seqZ 0 n).

(** [oid = items[i]; canvas.itemconfig(oid, fill=color, outline=color)] *)
Definition itemconfig (fills : list string) (i : Z) (color : string)
  : result (list string) :=
  _ ← py_getitem fills i;
  Ok (<[Z.to_nat (norm_index fills i) := color]> fills).

Definition _update_status_label (st : gui) : gui :=
  with_status st (pretty (current_try st + 1) +:+ " / " +:+ pretty MAX_TRIES).

Definition new_row : row_state :=
  {| peg_fill := for_range CODE_LENGTH (fun _ items => items ++ [LIGHTGRAY]) [];
     guess_state := py_repeat None CODE_LENGTH;
     fb_fill :=
       for_range 2 (fun _ => for_range 2 (fun _ items => items ++ [LIGHTGRAY])) [];
     solved := false |}.

Definition _create_rows (st : gui) : gui :=
  _update_status_label
    (for_range MAX_TRIES (fun _ s => with_rows s (rows s ++ [new_row])) st).

(** [Image.open("mastermind.png")], the first thing [__init__] does after
    setting the title: FileNotFoundError when the file is not there
    ([logo_found] is [false]). *)
Definition open_logo (logo_found : bool) : result unit :=
  if logo_found then Ok ()
  else Raise (FileNotFoundError "mastermind.png").

(** [MastermindGUI.__init__]: the logo is opened, then the secret is drawn
    and the fields are set, then [_build_ui] and [_create_rows] build the
    widgets. [_build_ui] reads no file and none of the game's fields and
    leaves the status text empty; building widgets is taken to succeed. *)
Definition __init__ (logo_found : bool) (g : rng) : result (gui * rng) :=
  _ ← open_logo logo_found;
  '(code, g') ← generate_code COLORS CODE_LENGTH g;
  Ok (_create_rows
        {| secret := code; current_try := 0; rows := []; game_over := false;
           status_label := EmptyString; dialogs := [] |},
      g').

Definition reset_row (row : row_state) : row_state :=
  {| peg_fill := (fun _ => LIGHTGRAY) <$> peg_fill row;
     guess_state := py_repeat None CODE_LENGTH;
     fb_fill := (fun _ => LIGHTGRAY) <$> fb_fill row;
     solved := false |}.

Definition _reset_game (st : gui) (g : rng) : result (gui * rng) :=
  '(code, g') ← generate_code COLORS CODE_LENGTH g;
  Ok (_update_status_label
        {| secret := code; current_try := 0; rows := reset_row <$> rows st;
           game_over := false; status_label := status_label st;
           dialogs := dialogs st |},
      g').

(** [DISPLAY_NAMES[c]] *)
Definition display_name (c : string) : result string :=
  match DISPLAY_NAMES !! c with
  | Some n => Ok n
  | None => Raise (KeyError c)
  end.

(** [", ".join(DISPLAY_NAMES[c] for c in self.secret)] *)
Definition secret_names (st : gui) : result string :=
  ns ← mapM display_name (secret st);
  Ok (String.concat ", " ns).

Definition win_message (st : gui) (names : string) : string :=
  "YOU WIN MASTERMIND!" +:+ nl +:+ nl +:+ "You cracked the code on try #"
  +:+ pretty (current_try st + 1) +:+ "!" +:+ nl +:+ nl +:+ "The code was:"
  +:+ nl +:+ names +:+ nl +:+ nl +:+ "Play again?".

Definition loss_message (names : string) : string :=
  "GAME OVER" +:+ nl +:+ nl +:+ "You used all " +:+ pretty MAX_TRIES
  +:+ " tries." +:+ nl +:+ nl +:+ "The code was:" +:+ nl +:+ names
  +:+ nl +:+ nl +:+ "Play again?".

(** [answer] is what the player answers to [messagebox.askyesno]. *)
Definition _reveal_win (answer : bool) (st : gui) (g : rng) : result (gui * rng) :=
  names ← secret_names st;
  let st' := with_dialog st "You Win Mastermind!" (win_message st names) in
  if answer then _reset_game st' g else Ok (st', g).

Definition _reveal_loss (answer : bool) (st : gui) (g : rng) : result (gui * rng) :=
  names ← secret_names st;
  let st' := with_dialog st "Game Over" (loss_message names) in
  if answer then _reset_game st' g else Ok (st', g).

Definition feedback_color (v : string) : string :=
  if decide (v = "black"%string) then "#39ff14"
  else if decide (v = "white"%string) then "#f8ff00"
  else "#ff5555".

(** [for i, v in enumerate(feedback)], from index [i] on. *)
Fixpoint draw_feedback_from (i : Z) (feedback : list string) (fills : list string)
  : result (list string) :=
  match feedback with
  | [] => Ok fills
  | v :: rest =>
      fills' ← itemconfig fills i (feedback_color v);
      draw_feedback_from (i + 1) rest fills'
  end.

Definition _draw_feedback (fills : list string) (feedback : list string)
  : result (list string) :=
  draw_feedback_from 0 feedback fills.

(** [row] is the dict [self.rows[self.current_try]] itself, so a change of
    [row] is a change of that element of [self.rows]. *)
Definition store_row (st : gui) (row : row_state) : result gui :=
  rs ← py_setitem (rows st) (current_try st) row;
  Ok (with_rows st rs).

(** How [_palette_click] ends: it returns, or it ends in the call of
    [_reveal_win] or [_reveal_loss] (each directly followed by [return]). *)
Inductive control : Type := Return | RevealWin | RevealLoss.

(** [_palette_click] up to the dialog it ends in, if any. The slots of a row
    hold a colour or [None], so the colours of the secret are compared with
    them as [Some] colour. *)
Definition palette_click_body (color : string) (st : gui) : result (gui * control) :=
  if game_over st then Ok (st, Return)
  else
    row ← py_getitem (rows st) (current_try st);
    match py_index None (guess_state row) with
    | Raise (ValueError _) => Ok (st, Return)
    | Raise e => Raise e
    | Ok pos =>
        gs ← py_setitem (guess_state row) pos (Some color);
        pf ← itemconfig (peg_fill row) pos color;
        let row1 := with_guess row pf gs in
        st1 ← store_row st row1;
        if negb (py_in None gs) then
          '(black, white) ← check_guess (Some <$> secret st1) gs;
          fb ← format_feedback black white CODE_LENGTH;
          ff ← _draw_feedback (fb_fill row1) fb;
          let row2 := with_fb row1 ff in
          st2 ← store_row st1 row2;
          if bool_decide (black = CODE_LENGTH) then
            st3 ← store_row st2 (with_solved row2 true);
            Ok (with_game_over st3 true, RevealWin)
          else
            let st3 := with_current_try st2 (current_try st2 + 1) in
            if bool_decide (current_try st3 >= MAX_TRIES) then
              Ok (with_game_over st3 true, RevealLoss)
            else Ok (_update_status_label st3, Return)
        else Ok (st1, Return)
    end.

Definition _palette_click (color : string) (answer : bool) (st : gui) (g : rng)
  : result (gui * rng) :=
  '(st', k) ← palette_click_body color st;
  match k with
  | Return => Ok (st', g)
  | RevealWin => _reveal_win answer st' g
  | RevealLoss => _reveal_loss answer st' g
  end.

(** ** Session state read off the window *)

Inductive outcome : Type := InProgress | Won | Lost.

(** A win marks the winning row [solved]; a loss marks none. *)
Definition session_state (st : gui) : outcome :=
  if game_over st then
    if existsb solved (rows st) then Won else Lost
  else InProgress.

(** States the window can be in: after start-up, and after each palette
    click (the palette offers [COLORS]) whatever the player answers to the
    dialog and whatever the generator draws. *)
Inductive reachable : gui -> Prop :=
| reach_init logo_found g st g' :
    __init__ logo_found g = Ok (st, g') -> reachable st
| reach_click st color answer g st' g' :
    reachable st -> color ∈ COLORS ->
    _palette_click color answer st g = Ok (st', g') -> reachable st'.

(** ** The invariant of reachable windows

    Every row has [CODE_LENGTH] guess pegs and slots and four feedback pegs;
    the rows below the current one hold complete guesses that missed, the
    rows above it are blank, and the current row is incomplete while the
    game is on and is the secret once the game is won. After a loss the
    current index is [MAX_TRIES], past the last row. *)

Definition row_ok (r : row_state) : Prop :=
  len (peg_fill r) = CODE_LENGTH /\ len (guess_state r) = CODE_LENGTH
  /\ len (fb_fill r) = 4.

(** The row holds a complete guess. *)
Definition complete (r : row_state) : Prop := None ∉ guess_state r.

Record wf (st : gui) : Prop := {
  wf_secret_len : len (secret st) = CODE_LENGTH;
  wf_secret_colors : Forall (fun c => c ∈ COLORS) (secret st);
  wf_rows_len : len (rows st) = MAX_TRIES;
  wf_rows_ok : Forall row_ok (rows st);
  wf_try : 0 <= current_try st <= MAX_TRIES;
  wf_open : game_over st = false -> current_try st < MAX_TRIES;
  wf_past : forall (i : nat) r,
    rows st !! i = Some r -> Z.of_nat i < current_try st ->
    complete r /\ solved r = false /\ guess_state r <> (Some <$> secret st);
  wf_future : forall (i : nat) r,
    rows st !! i = Some r -> current_try st < Z.of_nat i ->
    guess_state r = py_repeat None CODE_LENGTH /\ solved r = false;
  wf_current : forall r,
    rows st !! Z.to_nat (current_try st) = Some r ->
    if game_over st then solved r = true /\ guess_state r = (Some <$> secret st)
    else None ∈ guess_state r /\ solved r = false
}.

(** ** The cases of an accepted click *)

(** The row after [color] went into slot [pos]. *)
Definition placed (color : string) (pos : nat) (row : row_state) : row_state :=
  RowState (<[pos := color]> (peg_fill row)) (<[pos := Some color]> (guess_state row))
           (fb_fill row) (solved row).

(** The window with [row] as its current row. *)
Definition put_row (st : gui) (row : row_state) : gui :=
  with_rows st (<[Z.to_nat (current_try st) := row]> (rows st)).

(** The row after its feedback pegs were drawn as [ff]. *)
Definition scored (color : string) (pos : nat) (row : row_state) (ff : list string)
  : row_state :=
  with_fb (placed color pos row) ff.

(** The window with [row] as its current row, moved on to the next try. *)
Definition next_try (st : gui) (row : row_state) : gui :=
  with_current_try (put_row st row) (current_try st + 1).

(** How a click that is not ignored ends. *)
Inductive click_case (color : string) (st : gui) (row : row_state) (pos : nat)
  : result (gui * control) -> Prop :=
| click_placed :
    None ∈ guess_state (placed color pos row) ->
    click_case color st row pos (Ok (put_row st (placed color pos row), Return))
| click_win white ff :
    None ∉ guess_state (placed color pos row) ->
    check_guess (Some <$> secret st) (guess_state (placed color pos row))
      = Ok (CODE_LENGTH, white) ->
    len ff = 4 ->
    click_case color st row pos
      (Ok (with_game_over (put_row st (with_solved (scored color pos row ff) true)) true,
           RevealWin))
| click_loss black white ff :
    None ∉ guess_state (placed color pos row) ->
    check_guess (Some <$> secret st) (guess_state (placed color pos row))
      = Ok (black, white) ->
    black <> CODE_LENGTH -> len ff = 4 ->
    current_try st + 1 >= MAX_TRIES ->
    click_case color st row pos
      (Ok (with_game_over (next_try st (scored color pos row ff)) true, RevealLoss))
| click_next black white ff :
    None ∉ guess_state (placed color pos row) ->
    check_guess (Some <$> secret st) (guess_state (placed color pos row))
      = Ok (black, white) ->
    black <> CODE_LENGTH -> len ff = 4 ->
    current_try st + 1 < MAX_TRIES ->
    click_case color st row pos
      (Ok (_update_status_label (next_try st (scored color pos row ff)), Return)).

(** A row as [_create_rows] and [_reset_game] leave it. *)
Definition blank_row (r : row_state) : Prop :=
  row_ok r /\ guess_state r = py_repeat None CODE_LENGTH /\ solved r = false.

(** ** Guesses: submitted by a click, on the board, winning *)

(** The click [color] fills the last free slot of the current row, which
    then reads [gs]: the complete guess it submits. *)
Definition submits (color : string) (st : gui) (gs : list (option string)) : Prop :=
  game_over st = false
  /\ exists row pos,
       rows st !! Z.to_nat (current_try st) = Some row
       /\ py_index None (guess_state row) = Ok pos
       /\ gs = <[Z.to_nat pos := Some color]> (guess_state row)
       /\ None ∉ gs.

(** The complete guesses on the board. *)
Definition submitted (st : gui) : list (list (option string)) :=
  filter (fun gs => None ∉ gs) (guess_state <$> rows st).

(** The guess scores as many exact matches as the code is long. *)
Definition wins (st : gui) (gs : list (option string)) : Prop :=
  exists white, check_guess (Some <$> secret st) gs = Ok (CODE_LENGTH, white).

(** The three ways an accepted click can end. *)
Inductive click_outcome (color : string) (st st' : gui) (k : control) : Prop :=
| outcome_placed :
    (forall gs, ~ submits color st gs) ->
    session_state st' = InProgress -> k = Return ->
    current_try st' = current_try st ->
    click_outcome color st st' k
| outcome_won gs :
    submits color st gs -> wins st gs ->
    session_state st' = Won -> k = RevealWin ->
    current_try st' = current_try st ->
    click_outcome color st st' k
| outcome_missed gs :
    submits color st gs -> ~ wins st gs ->
    current_try st' = current_try st + 1 ->
    (current_try st' = MAX_TRIES /\ session_state st' = Lost /\ k = RevealLoss)
    \/ (current_try st' < MAX_TRIES /\ session_state st' = InProgress /\ k = Return) ->
    click_outcome color st st' k.

(** ** Sample games, on a fixed tape *)

Definition tape0 : rng := {| draws := fun n => (7 * n + 3)%nat; cursor := 0 |}.

(** Clicks in turn, each with the answer the player would give to a dialog. *)
Fixpoint play (clicks : list (string * bool)) (st : gui) (g : rng)
  : result (gui * rng) :=
  match clicks with
  | [] => Ok (st, g)
  | (color, answer) :: rest =>
      '(st', g') ← _palette_click color answer st g;
      play rest st' g'
  end.

(** Start-up on [tape0] with the logo in place, then the clicks. *)
Definition run (clicks : list (string * bool)) : result (gui * rng) :=
  '(st, g) ← __init__ true tape0;
  play clicks st g.

Definition state_of (r : result (gui * rng)) : gui :=
  match r with
  | Ok (st, _) => st
  | Raise _ => Gui [] 0 [] false EmptyString []
  end.

Definition returns {A : Type} (r : result A) : bool :=
  match r with
  | Ok _ => true
  | Raise _ => false
  end.

Definition palette_only (clicks : list (string * bool)) : bool :=
  forallb (fun ca => bool_decide (ca.1 ∈ COLORS)) clicks.

(** The code drawn from [tape0] is Pink, Blue, Violet, Cyan. *)
Definition miss : list (string * bool) :=
  [("#38ffff", false); ("#38ffff", false); ("#38ffff", false); ("#38ffff", false)]%string.

Definition nearly : list (string * bool) :=
  [("#ff5e9c", false); ("#5a7af5", false); ("#b277ff", false)]%string.

(** One missed row, then the code but for its last peg. *)
Definition before_win : gui := state_of (run (miss ++ nearly)).

(** Nine missed rows, and three pegs of the tenth. *)
Definition before_loss : gui :=
  state_of (run (mjoin (replicate 9 miss) ++ take 3 miss)).

(** Won on the second try, dialog declined. *)
Definition won_game : gui :=
  state_of (run (miss ++ nearly ++ [("#38ffff"%string, false)])).

(** Ten missed rows, dialog declined. *)
Definition lost_game : gui := state_of (run (mjoin (replicate 10 miss))).

(** ** reveal_secret_quiet *)

(** [[DISPLAY_NAMES[c] for c in self.secret]] *)
Definition reveal_secret_quiet (st : gui) : result (list string) :=
  mapM display_name (secret st).

(** ** What a click does, in closed form *)

(** The feedback pegs of a complete row: its score against the secret,
    formatted for [CODE_LENGTH] pegs and coloured. *)
Definition row_feedback (st : gui) (gs : list (option string)) : result (list string) :=
  '(black, white) ← check_guess (Some <$> secret st) gs;
  fb ← format_feedback black white CODE_LENGTH;
  Ok (feedback_color <$> (fb : list string)).

(** The window and the control after a complete row was scored [black] and
    its feedback pegs were drawn as [ff]. *)
Definition scored_result (color : string) (st : gui) (row : row_state) (pos : nat)
    (black : Z) (ff : list string) : gui * control :=
  if decide (black = CODE_LENGTH) then
    (with_game_over (put_row st (with_solved (scored color pos row ff) true)) true,
     RevealWin)
  else if decide (current_try st + 1 >= MAX_TRIES) then
    (with_game_over (next_try st (scored color pos row ff)) true, RevealLoss)
  else (_update_status_label (next_try st (scored color pos row ff)), Return).

(** The result of a click that puts [color] into slot [pos] of the current
    row [row]. *)
Definition click_result (color : string) (st : gui) (row : row_state) (pos : nat)
  : result (gui * control) :=
  if decide (None ∈ guess_state (placed color pos row)) then
    Ok (put_row st (placed color pos row), Return)
  else
    '(black, white) ←
      check_guess (Some <$> secret st) (guess_state (placed color pos row));
    fb ← format_feedback black white CODE_LENGTH;
    Ok (scored_result color st row pos black (feedback_color <$> (fb : list string))).

(** ** What the window shows *)

(** The fill of a guess peg for its slot. *)
Definition slot_fill (s : option string) : string := default LIGHTGRAY s.

(** The pegs of a row show its slots, and its feedback pegs show the score
    of the row if it is complete and are gray if it is not. *)
Definition row_drawn (st : gui) (r : row_state) : Prop :=
  peg_fill r = (slot_fill <$> guess_state r)
  /\ if decide (None ∈ guess_state r) then fb_fill r = replicate 4 LIGHTGRAY
     else row_feedback st (guess_state r) = Ok (fb_fill r).

(** Slots are filled from the left: colours first, empty slots after them. *)
Definition left_filled (gs : list (option string)) : Prop :=
  exists (cs : list string) (k : nat), gs = (Some <$> cs) ++ replicate k None.

(** The number of the try being played, counted from 1, of [MAX_TRIES]. *)
Definition status_text (st : gui) : string :=
  pretty (Z.min (current_try st + 1) MAX_TRIES) +:+ " / " +:+ pretty MAX_TRIES.

Record tidy (st : gui) : Prop := {
  tidy_rows :
    Forall (fun r => row_drawn st r /\ left_filled (guess_state r)) (rows st);
  tidy_status : status_label st = status_text st
}.

(** ** Counting pegs and clicks *)

(** The number of guess pegs placed on the board. *)
Definition pegs_placed (st : gui) : nat :=
  length (filter is_Some (mjoin (guess_state <$> rows st))).

(** Clicks to which the player, asked to play again, says no. *)
Definition declined (colors : list string) : list (string * bool) :=
  (fun c => (c, false)) <$> colors.

(** ** The layout of a row (_create_rows)

    An oval is given by its bounding box, as [create_oval] takes it. The
    sizes are the module's constants; the layout is written over them as
    parameters and then taken at the constants. *)

Definition LARGE_PEG_DIAM : Z := 40.
Definition LARGE_PEG_GAP : Z := 12.
Definition FEEDBACK_BLOCK_SIZE : Z := LARGE_PEG_DIAM.
Definition SMALL_PEG_DIAM : Z := (FEEDBACK_BLOCK_SIZE - 8) / 2.
Definition SMALL_PEG_GAP : Z := 6.

Record oval : Type := Oval { x_left : Z; y_top : Z; x_right : Z; y_bottom : Z }.

Section row_layout.
Variables (peg_diam peg_gap code_length : Z).
Variables (block small_diam small_gap : Z).

(** [guess_w] and [guess_h] *)
Definition guess_canvas_width : Z :=
  peg_diam * code_length + peg_gap * (code_length - 1) + 8.

Definition guess_canvas_height : Z := peg_diam + 8.

(** One turn of [for i in range(CODE_LENGTH)], on [peg_items] and [x]. *)
Definition add_guess_oval (state : list oval * Z) : list oval * Z :=
  let '(items, x) := state in
  (items ++ [Oval x 4 (x + peg_diam) (4 + peg_diam)], x + peg_diam + peg_gap).

Definition guess_ovals_of : list oval :=
  (for_range code_length (fun _ => add_guess_oval) ([], 4)).1.

(** [small_x0] and [small_y0] (the same expression) *)
Definition small_origin : Z := (block - (2 * small_diam + small_gap)) / 2.

Definition feedback_ovals_of : list oval :=
  for_range 2 (fun rr =>
    for_range 2 (fun cc items =>
      let sx := small_origin + cc * (small_diam + small_gap) in
      let sy := small_origin + rr * (small_diam + small_gap) in
      items ++ [Oval sx sy (sx + small_diam) (sy + small_diam)])) [].

End row_layout.

Definition guess_ovals : list oval :=
  guess_ovals_of LARGE_PEG_DIAM LARGE_PEG_GAP CODE_LENGTH.

Definition feedback_ovals : list oval :=
  feedback_ovals_of FEEDBACK_BLOCK_SIZE SMALL_PEG_DIAM SMALL_PEG_GAP.

(** * Proofs *)

(** ** Sums *)

Lemma foldl_add_shift (a : Z) (xs : list Z) :
  foldl Z.add a xs = a + foldl Z.add 0 xs.
Proof.
  revert a. induction xs as [|x xs IH]; intros a; simpl; [lia|].
  rewrite (IH (a + x)), (IH (0 + x)). lia.
Qed.

Lemma py_sum_nil : py_sum [] = 0.
Proof. reflexivity. Qed.

Lemma py_sum_cons (x : Z) (xs : list Z) : py_sum (x :: xs) = x + py_sum xs.
Proof. unfold py_sum. simpl. rewrite foldl_add_shift. lia. Qed.

Lemma py_sum_app (xs ys : list Z) : py_sum (xs ++ ys) = py_sum xs + py_sum ys.
Proof.
  induction xs as [|x xs IH]; simpl; [rewrite py_sum_nil; lia|].
  rewrite !py_sum_cons, IH. lia.
Qed.

Lemma py_sum_perm (xs ys : list Z) : xs ≡ₚ ys -> py_sum xs = py_sum ys.
Proof.
  induction 1; rewrite ?py_sum_cons; lia.
Qed.

Section sums.
Context {B : Type}.
Implicit Types (f h : B -> Z) (l : list B).

Lemma py_sum_fmap_cons f x l :
  py_sum (f <$> x :: l) = f x + py_sum (f <$> l).
Proof. rewrite fmap_cons. apply py_sum_cons. Qed.

Lemma py_sum_fmap_add f h l :
  py_sum ((fun x => f x + h x) <$> l) = py_sum (f <$> l) + py_sum (h <$> l).
Proof.
  induction l as [|x l IH]; [reflexivity|].
  rewrite !py_sum_fmap_cons, IH. lia.
Qed.

Lemma py_sum_fmap_le f h l :
  (forall x, x ∈ l -> f x <= h x) -> py_sum (f <$> l) <= py_sum (h <$> l).
Proof.
  induction l as [|x l IH]; intros Hle; [reflexivity|].
  rewrite !py_sum_fmap_cons.
  assert (f x <= h x) by (apply Hle; left).
  assert (py_sum (f <$> l) <= py_sum (h <$> l)) by (apply IH; intros; apply Hle; by right).
  lia.
Qed.

Lemma py_sum_fmap_ext f h l :
  (forall x, x ∈ l -> f x = h x) -> py_sum (f <$> l) = py_sum (h <$> l).
Proof.
  intros Heq. apply Z.le_antisymm; apply py_sum_fmap_le; intros x Hx;
    rewrite (Heq x Hx); lia.
Qed.

Lemma py_sum_fmap_zero f l :
  (forall x, x ∈ l -> f x = 0) -> py_sum (f <$> l) = 0.
Proof.
  induction l as [|x l IH]; intros Hz; [reflexivity|].
  rewrite py_sum_fmap_cons, Hz, IH; [lia| |left].
  intros; apply Hz; by right.
Qed.

Lemma py_sum_fmap_nonneg f l :
  (forall x, x ∈ l -> 0 <= f x) -> 0 <= py_sum (f <$> l).
Proof.
  intros Hp. rewrite <- (py_sum_fmap_zero (fun _ => 0) l) by done.
  by apply py_sum_fmap_le.
Qed.

Lemma py_sum_fmap_ones l : py_sum ((fun _ => 1) <$> l) = len l.
Proof.
  unfold len. induction l as [|x l IH]; [reflexivity|].
  rewrite py_sum_fmap_cons, IH. simpl length. lia.
Qed.

End sums.

Section classes.
Context `{EqDecision A} {B : Type}.
Implicit Types (D : list A) (l : list B) (key : B -> A) (w : B -> Z).

(** A sum over distinct classes picks out the class of [k]. *)
Lemma py_sum_indicator D (k : A) (v : Z) :
  NoDup D -> k ∈ D ->
  py_sum ((fun c => if decide (k = c) then v else 0) <$> D) = v.
Proof.
  induction 1 as [|c D Hc HD IH]; intros Hk; [by apply elem_of_nil in Hk|].
  rewrite py_sum_fmap_cons. apply elem_of_cons in Hk as [->|Hk].
  - rewrite decide_True by done. rewrite py_sum_fmap_zero; [lia|].
    intros x Hx. rewrite decide_False; [done|]. intros ->. done.
  - rewrite decide_False by (intros ->; done). rewrite IH by done. lia.
Qed.

(** Splitting a weighted sum over [l] by the class of each element. *)
Lemma py_sum_by_class D l key w :
  NoDup D -> (forall x, x ∈ l -> key x ∈ D) ->
  py_sum ((fun c => py_sum ((fun x => if decide (key x = c) then w x else 0) <$> l)) <$> D)
  = py_sum (w <$> l).
Proof.
  intros HD. induction l as [|x l IH]; intros Hkey.
  - simpl. by apply py_sum_fmap_zero.
  - rewrite (py_sum_fmap_ext _
      (fun c => (if decide (key x = c) then w x else 0)
                + py_sum ((fun y => if decide (key y = c) then w y else 0) <$> l)) D)
      by (intros; apply py_sum_fmap_cons).
    rewrite py_sum_fmap_add, py_sum_indicator, IH, py_sum_fmap_cons; auto.
    + intros; apply Hkey; by right.
    + apply Hkey; left.
Qed.

End classes.

Section scoring_facts.
Context `{Countable A}.
Implicit Types (secret guess s g : list A) (c : A).

Lemma check_guess_eq s g :
  length s = length g ->
  check_guess s g = Ok (black_of s g, total_of s g - black_of s g).
Proof.
  intros Hlen. unfold check_guess, len. rewrite decide_False by lia. reflexivity.
Qed.

Lemma check_guess_mismatch s g :
  length s <> length g ->
  check_guess s g = Raise (ValueError "Secret and guess must be same length").
Proof.
  intros Hlen. unfold check_guess, len. rewrite decide_True by lia. reflexivity.
Qed.

Lemma py_count_nil c : py_count c [] = 0.
Proof. reflexivity. Qed.

Lemma py_count_cons c x s :
  py_count c (x :: s) = (if decide (x = c) then 1 else 0) + py_count c s.
Proof.
  unfold py_count, len. rewrite filter_cons.
  destruct (decide (x = c)); simpl length; lia.
Qed.

Lemma py_count_as_sum c s :
  py_count c s = py_sum ((fun x => if decide (x = c) then 1 else 0) <$> s).
Proof.
  induction s as [|x s IH]; [reflexivity|].
  by rewrite py_count_cons, py_sum_fmap_cons, IH.
Qed.

Lemma py_count_nonneg c s : 0 <= py_count c s.
Proof. unfold py_count, len. lia. Qed.

Lemma py_count_not_elem c s : c ∉ s -> py_count c s = 0.
Proof.
  induction s as [|x s IH]; intros Hc; [reflexivity|].
  apply not_elem_of_cons in Hc as [Hne Hc].
  rewrite py_count_cons, decide_False, IH by done. lia.
Qed.

Lemma py_count_occurrences c s : py_count c s = Z.of_nat (occurrences c s).
Proof.
  induction s as [|x s IH]; [reflexivity|].
  rewrite py_count_cons, IH. simpl. destruct (decide (x = c)); lia.
Qed.

Lemma black_at_le_guess c s g : black_at c s g <= py_count c g.
Proof.
  unfold black_at. revert g. induction s as [|x s IH]; intros [|y g]; simpl zip;
    try (rewrite fmap_nil, py_sum_nil; apply py_count_nonneg).
  rewrite py_sum_fmap_cons, py_count_cons. specialize (IH g). simpl.
  destruct (decide (y = c)); [|lia].
  destruct (bool_decide (x = y)); simpl; lia.
Qed.

Lemma black_at_le_secret c s g : black_at c s g <= py_count c s.
Proof.
  unfold black_at. revert g. induction s as [|x s IH]; intros [|y g]; simpl zip;
    try (rewrite fmap_nil, py_sum_nil; apply py_count_nonneg).
  rewrite py_sum_fmap_cons, py_count_cons. specialize (IH g). simpl.
  destruct (decide (y = c)) as [->|].
  - case_bool_decide as Hxy; simpl; [rewrite decide_True by done; lia|].
    destruct (decide (x = c)); lia.
  - destruct (decide (x = c)); lia.
Qed.

Lemma elem_of_colours g c : c ∈ elements (list_to_set g : gset A) <-> c ∈ g.
Proof. rewrite elem_of_elements. apply elem_of_list_to_set. Qed.

Lemma black_by_colour s g :
  py_sum ((fun c => black_at c s g) <$> elements (list_to_set g : gset A))
  = black_of s g.
Proof.
  unfold black_at, black_of.
  apply (py_sum_by_class _ (zip s g) snd); [apply NoDup_elements|].
  intros [x y] Hxy. apply elem_of_colours. simpl.
  eapply elem_of_zip_r, Hxy.
Qed.

Lemma guess_by_colour g :
  py_sum ((fun c => py_count c g) <$> elements (list_to_set g : gset A)) = len g.
Proof.
  rewrite <- (py_sum_fmap_ones g).
  rewrite <- (py_sum_by_class (elements (list_to_set g : gset A)) g id (fun _ => 1)).
  - apply py_sum_fmap_ext. intros c _. apply py_count_as_sum.
  - apply NoDup_elements.
  - intros x Hx. by apply elem_of_colours.
Qed.

Lemma black_nonneg s g : 0 <= black_of s g.
Proof.
  apply py_sum_fmap_nonneg. intros [x y] _. simpl. destruct (bool_decide _); simpl; lia.
Qed.

Lemma black_le_total s g : black_of s g <= total_of s g.
Proof.
  rewrite <- black_by_colour. apply py_sum_fmap_le. intros c _.
  pose proof (black_at_le_guess c s g). pose proof (black_at_le_secret c s g). lia.
Qed.

Lemma total_le_len s g : total_of s g <= len g.
Proof.
  rewrite <- guess_by_colour. apply py_sum_fmap_le. intros c _. lia.
Qed.

(** The set of colours of the guess can be replaced by any larger one. *)
Lemma total_over_superset s g (X : gset A) :
  list_to_set g ⊆ X ->
  total_of s g = py_sum ((fun c => Z.min (py_count c s) (py_count c g)) <$> elements X).
Proof.
  intros Hsub. unfold total_of.
  rewrite (union_difference_L _ _ Hsub) at 1.
  assert (list_to_set g ## X ∖ list_to_set g) as Hdisj.
  { intros c Hc1 Hc2. apply elem_of_difference in Hc2 as [_ Hc2]. done. }
  rewrite (py_sum_perm _ _ (fmap_Permutation _ _ _ (elements_disj_union _ _ Hdisj))).
  rewrite fmap_app, py_sum_app, (py_sum_fmap_zero _ (elements (X ∖ _))); [lia|].
  intros c Hc. apply elem_of_elements, elem_of_difference in Hc as [_ Hc].
  rewrite elem_of_list_to_set in Hc. rewrite (py_count_not_elem c g Hc).
  pose proof (py_count_nonneg c s). lia.
Qed.

Lemma total_sym s g : total_of s g = total_of g s.
Proof.
  rewrite (total_over_superset s g (list_to_set s ∪ list_to_set g)) by set_solver.
  rewrite (total_over_superset g s (list_to_set s ∪ list_to_set g)) by set_solver.
  apply py_sum_fmap_ext. intros c _. lia.
Qed.

Lemma black_sym s g : black_of s g = black_of g s.
Proof.
  unfold black_of. revert g. induction s as [|x s IH]; intros [|y g]; try reflexivity.
  simpl zip. rewrite !py_sum_fmap_cons, IH. simpl.
  f_equal. f_equal. apply bool_decide_ext. naive_solver.
Qed.

Lemma black_le_len s g : black_of s g <= len s.
Proof.
  unfold black_of, len. revert g. induction s as [|x s IH]; intros [|y g]; simpl zip;
    try (rewrite fmap_nil, py_sum_nil; lia).
  rewrite py_sum_fmap_cons. specialize (IH g). simpl.
  destruct (bool_decide (x = y)); simpl; lia.
Qed.

Lemma black_full_iff s g :
  length s = length g -> (black_of s g = len s <-> g = s).
Proof.
  revert g. induction s as [|x s IH]; intros [|y g] Hlen; try discriminate.
  - done.
  - injection Hlen as Hlen. specialize (IH g Hlen).
    pose proof (black_le_len s g) as Hle.
    unfold black_of in *. simpl zip. rewrite py_sum_fmap_cons. simpl.
    unfold len in *. simpl length.
    case_bool_decide as Hxy; simpl.
    + subst y. split.
      * intros Hb. f_equal. apply IH. lia.
      * intros [= ->]. assert (py_sum ((fun sg : A * A => Z.b2z (bool_decide (sg.1 = sg.2))) <$> zip s s) = Z.of_nat (length s)) by (by apply IH). lia.
    + split; [lia|]. intros [= -> ->]. done.
Qed.

(** Relation to the wording of the specification. *)
Lemma length_filter_fmap {B C : Type} (f : B -> C) (P : C -> Prop)
    `{!forall x, Decision (P x)} (l : list B) :
  length (filter P (f <$> l)) = length (filter (fun x => P (f x)) l).
Proof.
  induction l as [|x l IH]; [reflexivity|].
  rewrite fmap_cons, !filter_cons. destruct (decide (P (f x))); simpl; lia.
Qed.

Lemma black_exactMatches s g :
  length s = length g -> black_of s g = Z.of_nat (exactMatches_spec s g).
Proof.
  unfold black_of, exactMatches_spec.
  revert g. induction s as [|x s IH]; intros [|y g] Hlen; try discriminate; [done|].
  injection Hlen as Hlen. simpl zip. rewrite py_sum_fmap_cons, (IH g Hlen).
  simpl length. simpl seq. rewrite filter_cons. simpl.
  rewrite <- fmap_S_seq.
  case_bool_decide as Hxy.
  - rewrite decide_True by congruence. simpl length.
    rewrite length_filter_fmap. simpl. lia.
  - rewrite decide_False by congruence.
    rewrite length_filter_fmap. simpl. lia.
Qed.

Lemma sum_list_py_sum (f : A -> nat) (l : list A) :
  Z.of_nat (sum_list (f <$> l)) = py_sum ((fun c => Z.of_nat (f c)) <$> l).
Proof.
  induction l as [|x l IH]; [reflexivity|].
  rewrite py_sum_fmap_cons, <- IH, fmap_cons.
  change (sum_list (f x :: (f <$> l))) with (f x + sum_list (f <$> l))%nat. lia.
Qed.

Lemma total_distinct s g :
  total_of s g
  = Z.of_nat (sum_list ((fun c => (occurrences c s `min` occurrences c g)%nat)
                          <$> remove_dups g)).
Proof.
  rewrite sum_list_py_sum. unfold total_of.
  assert (elements (list_to_set g : gset A) ≡ₚ remove_dups g) as Hperm.
  { apply NoDup_Permutation; [apply NoDup_elements|apply NoDup_remove_dups|].
    intros c. by rewrite elem_of_colours, elem_of_remove_dups. }
  rewrite (py_sum_perm _ _ (fmap_Permutation _ _ _ Hperm)).
  apply py_sum_fmap_ext. intros c _. rewrite !py_count_occurrences. lia.
Qed.

End scoring_facts.

(** ** The error monad *)

Lemma bind_Ok {A B : Type} (a : A) (k : A -> result B) : (Ok a ≫= k) = k a.
Proof. reflexivity. Qed.

Lemma bind_Raise {A B : Type} (e : exn) (k : A -> result B) :
  (Raise e ≫= k) = Raise e.
Proof. reflexivity. Qed.

(** ** Indexing *)

Section indexing.
Context {A : Type}.
Implicit Types (xs : list A) (i : Z).

Lemma norm_index_nonneg xs i : 0 <= i -> norm_index xs i = i.
Proof. intros Hi. unfold norm_index. by rewrite bool_decide_eq_false_2 by lia. Qed.

Lemma py_getitem_ok xs i x :
  0 <= i -> xs !! Z.to_nat i = Some x -> py_getitem xs i = Ok x.
Proof.
  intros Hi Hx. unfold py_getitem. rewrite norm_index_nonneg by done.
  apply lookup_lt_Some in Hx as Hlt. unfold len.
  rewrite bool_decide_eq_true_2 by lia. by rewrite Hx.
Qed.

Lemma py_getitem_in_range xs i :
  0 <= i < len xs -> exists x, xs !! Z.to_nat i = Some x /\ py_getitem xs i = Ok x.
Proof.
  unfold len. intros Hi.
  destruct (lookup_lt_is_Some_2 xs (Z.to_nat i)) as [x Hx]; [lia|].
  exists x. split; [done|]. apply py_getitem_ok; [lia|done].
Qed.

Lemma py_setitem_ok xs i x :
  0 <= i < len xs -> py_setitem xs i x = Ok (<[Z.to_nat i := x]> xs).
Proof.
  intros Hi. unfold py_setitem. rewrite norm_index_nonneg by lia.
  by rewrite bool_decide_eq_true_2 by lia.
Qed.

End indexing.

Lemma itemconfig_ok (fills : list string) (i : Z) (color : string) :
  0 <= i < len fills -> itemconfig fills i color = Ok (<[Z.to_nat i := color]> fills).
Proof.
  intros Hi. unfold itemconfig.
  destruct (py_getitem_in_range fills i Hi) as (x & _ & ->).
  rewrite bind_Ok, norm_index_nonneg by lia. done.
Qed.

Lemma py_index_elem `{EqDecision A} (x : A) (xs : list A) :
  x ∈ xs ->
  exists pos : nat, py_index x xs = Ok (Z.of_nat pos) /\ xs !! pos = Some x.
Proof.
  induction xs as [|y ys IH]; intros Hx; [by apply elem_of_nil in Hx|].
  simpl. destruct (decide (y = x)) as [->|Hne].
  - by exists 0%nat.
  - apply elem_of_cons in Hx as [->|Hx]; [done|].
    destruct (IH Hx) as (pos & -> & Hpos). exists (S pos). split; [|done].
    rewrite bind_Ok. f_equal. lia.
Qed.

Lemma py_index_not_elem `{EqDecision A} (x : A) (xs : list A) :
  x ∉ xs -> py_index x xs = Raise (ValueError "x is not in list").
Proof.
  induction xs as [|y ys IH]; intros Hx; [done|].
  apply not_elem_of_cons in Hx as [Hne Hx]. simpl.
  rewrite decide_False by done. by rewrite IH.
Qed.

(** ** format_feedback and _draw_feedback *)

Lemma format_feedback_ok (black white length : Z) :
  0 <= black -> 0 <= white -> black + white <= length ->
  format_feedback black white length
  = Ok (py_repeat "black"%string black ++ py_repeat "white"%string white
        ++ py_repeat "empty"%string (length - black - white)).
Proof.
  intros Hb Hw Hl. unfold format_feedback.
  by rewrite !bool_decide_eq_false_2 by lia.
Qed.

Lemma format_feedback_invalid (black white length : Z) :
  ~ (0 <= black /\ 0 <= white /\ black + white <= length) ->
  format_feedback black white length = Raise (ValueError "Invalid black/white counts").
Proof.
  intros Hbad. unfold format_feedback.
  destruct (bool_decide_reflect (black < 0)); [done|].
  destruct (bool_decide_reflect (white < 0)); [done|].
  rewrite bool_decide_eq_true_2 by lia. done.
Qed.

Lemma format_feedback_length (black white length : Z) (fb : list string) :
  format_feedback black white length = Ok fb -> len fb = length.
Proof.
  unfold format_feedback.
  destruct (bool_decide_reflect (black < 0)); [done|].
  destruct (bool_decide_reflect (white < 0)); [done|].
  destruct (bool_decide_reflect (black + white > length)); [done|].
  simpl. intros [= <-]. unfold len, py_repeat.
  rewrite !length_app, !length_replicate. lia.
Qed.

Lemma draw_feedback_from_ok (feedback fills : list string) (i : Z) :
  0 <= i -> i + len feedback <= len fills ->
  exists ff, draw_feedback_from i feedback fills = Ok ff /\ length ff = length fills.
Proof.
  revert fills i. induction feedback as [|v rest IH]; intros fills i Hi Hlen.
  - by exists fills.
  - unfold len in *. simpl length in Hlen. simpl.
    rewrite itemconfig_ok by (unfold len; lia). rewrite bind_Ok.
    destruct (IH (<[Z.to_nat i := feedback_color v]> fills) (i + 1)) as (ff & -> & Hff).
    + lia.
    + rewrite length_insert. lia.
    + exists ff. by rewrite Hff, length_insert.
Qed.

(** ** generate_code *)

Lemma random_choice_ok {A : Type} (seq : list A) (g : rng) :
  seq <> [] ->
  exists x g', random_choice seq g = Ok (x, g') /\ x ∈ seq.
Proof.
  intros Hne. destruct seq as [|a seq]; [done|].
  unfold random_choice, randbelow.
  set (i := (draws g (cursor g) mod length (a :: seq))%nat).
  assert (i < length (a :: seq))%nat as Hi
    by (apply Nat.mod_upper_bound; simpl; lia).
  destruct (lookup_lt_is_Some_2 _ _ Hi) as [x Hx]. rewrite Hx.
  eexists _, _. split; [done|]. by eapply list_elem_of_lookup_2.
Qed.

Lemma choices_ok (colors : list string) (n : nat) (g : rng) :
  colors <> [] ->
  exists code g', choices colors n g = Ok (code, g')
    /\ length code = n /\ Forall (fun c => c ∈ colors) code.
Proof.
  intros Hne. revert g. induction n as [|n IH]; intros g.
  - by exists [], g.
  - simpl. destruct (random_choice_ok colors g Hne) as (c & g1 & -> & Hc).
    rewrite bind_Ok. destruct (IH g1) as (cs & g2 & -> & Hlen & Hall).
    rewrite bind_Ok. exists (c :: cs), g2. simpl. split; [done|].
    split; [by rewrite Hlen|by constructor].
Qed.

Lemma choices_empty_palette (n : nat) (g : rng) :
  choices [] (S n) g = Raise (IndexError "Cannot choose from an empty sequence").
Proof. reflexivity. Qed.

(** ** Storing a row, and the cases of a click *)

Lemma store_row_ok (st : gui) (row : row_state) :
  0 <= current_try st < len (rows st) -> store_row st row = Ok (put_row st row).
Proof.
  intros Hct. unfold store_row. by rewrite py_setitem_ok by done.
Qed.

Lemma put_row_put_row (st : gui) (r1 r2 : row_state) :
  put_row (put_row st r1) r2 = put_row st r2.
Proof.
  unfold put_row, with_rows. simpl. by rewrite list_insert_insert_eq.
Qed.

Lemma check_guess_row (st : gui) (gs : list (option string)) :
  len (secret st) = CODE_LENGTH -> len gs = CODE_LENGTH ->
  let s := Some <$> secret st in
  check_guess s gs = Ok (black_of s gs, total_of s gs - black_of s gs)
  /\ 0 <= black_of s gs /\ 0 <= total_of s gs - black_of s gs
  /\ black_of s gs + (total_of s gs - black_of s gs) <= CODE_LENGTH
  /\ (black_of s gs = CODE_LENGTH <-> gs = s).
Proof.
  intros Hs Hg s. unfold len in *.
  assert (length s = length gs) as Hlen by (unfold s; rewrite length_fmap; lia).
  split; [by apply check_guess_eq|].
  pose proof (black_nonneg s gs). pose proof (black_le_total s gs).
  pose proof (total_le_len s gs) as Ht. unfold len in Ht.
  split; [done|]. split; [lia|]. split; [lia|].
  assert (len s = CODE_LENGTH) as Hls
    by (unfold len, s; rewrite length_fmap; exact Hs).
  by rewrite <- (black_full_iff s gs Hlen), Hls.
Qed.

Lemma palette_click_body_cases (color : string) (st : gui) :
  wf st -> game_over st = false ->
  exists row (pos : nat),
    rows st !! Z.to_nat (current_try st) = Some row
    /\ guess_state row !! pos = Some None
    /\ py_index None (guess_state row) = Ok (Z.of_nat pos)
    /\ click_case color st row pos (palette_click_body color st).
Proof.
  intros Hwf Hopen. pose proof (wf_open st Hwf Hopen) as Hlt.
  pose proof (wf_try st Hwf) as Htry. pose proof (wf_rows_len st Hwf) as Hrows.
  destruct (py_getitem_in_range (rows st) (current_try st)) as (row & Hrow & Hget);
    [lia|].
  pose proof (wf_current st Hwf row Hrow) as Hcur. rewrite Hopen in Hcur.
  destruct Hcur as [Hnone Hsolved].
  destruct (py_index_elem None (guess_state row) Hnone) as (pos & Hidx & Hpos).
  assert (row_ok row) as (Hpf & Hgs & Hfb).
  { eapply Forall_lookup_1; [apply (wf_rows_ok st Hwf)|done]. }
  apply lookup_lt_Some in Hpos as Hposlt.
  exists row, pos. split; [done|]. split; [done|]. split; [done|].
  set (row1 := placed color pos row).
  unfold palette_click_body. rewrite Hopen, Hget, bind_Ok, Hidx.
  rewrite py_setitem_ok by (unfold len; lia). rewrite bind_Ok.
  rewrite itemconfig_ok by (unfold len in *; lia). rewrite bind_Ok.
  rewrite Nat2Z.id.
  change (with_guess row (<[pos:=color]> (peg_fill row))
            (<[pos:=Some color]> (guess_state row))) with row1.
  rewrite store_row_ok by lia. rewrite bind_Ok.
  unfold py_in. change (<[pos:=Some color]> (guess_state row)) with (guess_state row1).
  destruct (bool_decide_reflect (None ∈ guess_state row1)) as [Hin|Hnin]; simpl negb;
    cbv iota.
  { by constructor. }
  assert (len (guess_state row1) = CODE_LENGTH) as Hgs1.
  { unfold len, row1, placed. simpl. rewrite length_insert. exact Hgs. }
  destruct (check_guess_row (put_row st row1) (guess_state row1)) as (Hcg & Hb & Hw & Hbw & _);
    [apply (wf_secret_len st Hwf)|done|].
  change (secret (put_row st row1)) with (secret st) in *.
  set (black := black_of (Some <$> secret st) (guess_state row1)) in *.
  set (white := total_of (Some <$> secret st) (guess_state row1) - black) in *.
  rewrite Hcg, bind_Ok. cbv beta iota.
  pose proof (format_feedback_ok black white CODE_LENGTH Hb Hw Hbw) as Hfmt.
  pose proof (format_feedback_length _ _ _ _ Hfmt) as Hfblen.
  rewrite Hfmt, bind_Ok.
  destruct (draw_feedback_from_ok
              (py_repeat "black"%string black ++ py_repeat "white"%string white
               ++ py_repeat "empty"%string (CODE_LENGTH - black - white))
              (fb_fill row1) 0) as (ff & Hdraw & Hff); [lia| |].
  { rewrite Hfblen. change (fb_fill row1) with (fb_fill row). rewrite Hfb. done. }
  unfold _draw_feedback. rewrite Hdraw, bind_Ok.
  assert (len ff = 4) as Hff4
    by (unfold len in *; change (fb_fill row1) with (fb_fill row) in Hff; lia).
  rewrite store_row_ok by (unfold put_row, len; simpl; rewrite length_insert; unfold len in *; lia).
  rewrite bind_Ok, put_row_put_row.
  change (with_fb row1 ff) with (scored color pos row ff).
  destruct (bool_decide_reflect (black = CODE_LENGTH)) as [Hwin|Hnowin].
  { rewrite store_row_ok by (unfold put_row, len; simpl; rewrite length_insert; unfold len in *; lia).
    rewrite bind_Ok, put_row_put_row.
    apply (click_win _ _ _ _ white ff); [done| |done]. rewrite <- Hwin. exact Hcg. }
  simpl current_try.
  change (with_current_try (put_row st (scored color pos row ff)) (current_try st + 1))
    with (next_try st (scored color pos row ff)).
  destruct (bool_decide_reflect (current_try st + 1 >= MAX_TRIES)).
  - by apply (click_loss _ _ _ _ black white ff).
  - apply (click_next _ _ _ _ black white ff); try done. lia.
Qed.

(** ** Start-up and reset give a well-formed window *)

Lemma wf_fresh (st : gui) :
  len (secret st) = CODE_LENGTH -> Forall (fun c => c ∈ COLORS) (secret st) ->
  current_try st = 0 -> game_over st = false ->
  len (rows st) = MAX_TRIES -> Forall blank_row (rows st) ->
  wf st.
Proof.
  intros Hlen Hcol Hct Hopen Hrows Hblank.
  assert (forall (i : nat) r, rows st !! i = Some r -> blank_row r) as Hrow
    by (intros i r; by apply Forall_lookup_1).
  constructor; try done.
  - eapply Forall_impl; [exact Hblank|]. by intros r [? _].
  - rewrite Hct. done.
  - rewrite Hct. done.
  - intros i r _. rewrite Hct. lia.
  - intros i r Hr _. by destruct (Hrow i r Hr) as (_ & ? & ?).
  - intros r Hr. rewrite Hopen. destruct (Hrow _ r Hr) as (_ & -> & ?).
    split; [|done]. by left.
Qed.

Lemma generate_code_ok (colors : list string) (length : Z) (g : rng) :
  colors <> [] ->
  exists code g', generate_code colors length g = Ok (code, g')
    /\ len code = Z.max 0 length /\ Forall (fun c => c ∈ colors) code.
Proof.
  intros Hne. unfold generate_code.
  destruct (choices_ok colors (Z.to_nat length) g Hne) as (code & g' & Hc & Hlen & Hall).
  exists code, g'. split; [done|]. split; [unfold len; lia|done].
Qed.

Lemma create_rows_eq (code : list string) :
  _create_rows (Gui code 0 [] false EmptyString [])
  = Gui code 0 (replicate 10 new_row) false "1 / 10" [].
Proof. reflexivity. Qed.

Lemma blank_new_row : blank_row new_row.
Proof. by repeat split. Qed.

Lemma blank_reset_row (r : row_state) : row_ok r -> blank_row (reset_row r).
Proof.
  intros (Hpf & Hgs & Hfb). unfold blank_row, row_ok, reset_row, len in *. simpl.
  rewrite !length_fmap. by repeat split.
Qed.

Lemma init_without_logo (g : rng) :
  __init__ false g = Raise (FileNotFoundError "mastermind.png").
Proof. reflexivity. Qed.

Lemma init_with_logo (g : rng) :
  __init__ true g
  = ('(code, g') ← generate_code COLORS CODE_LENGTH g;
     Ok (_create_rows
           {| secret := code; current_try := 0; rows := []; game_over := false;
              status_label := EmptyString; dialogs := [] |},
         g')).
Proof. reflexivity. Qed.

Lemma wf_init (g : rng) :
  exists st g', __init__ true g = Ok (st, g') /\ wf st.
Proof.
  rewrite init_with_logo.
  destruct (generate_code_ok COLORS CODE_LENGTH g) as (code & g' & -> & Hlen & Hcol);
    [done|].
  rewrite bind_Ok. cbv beta iota. eexists _, _. split; [reflexivity|].
  rewrite create_rows_eq. apply wf_fresh; try done.
  apply (Forall_replicate blank_row 10 new_row), blank_new_row.
Qed.

Lemma wf_reset_game (st : gui) (g : rng) :
  wf st -> exists st' g', _reset_game st g = Ok (st', g') /\ wf st'
    /\ current_try st' = 0 /\ game_over st' = false
    /\ Forall blank_row (rows st') /\ dialogs st' = dialogs st.
Proof.
  intros Hwf. unfold _reset_game.
  destruct (generate_code_ok COLORS CODE_LENGTH g) as (code & g' & -> & Hlen & Hcol);
    [done|].
  rewrite bind_Ok. cbv beta iota. eexists _, _. split; [reflexivity|].
  assert (Forall blank_row (reset_row <$> rows st)) as Hblank.
  { apply Forall_fmap. eapply Forall_impl; [apply (wf_rows_ok st Hwf)|].
    intros r. apply blank_reset_row. }
  split; [|done].
  apply wf_fresh; try done. simpl. unfold len. rewrite length_fmap.
  apply (wf_rows_len st Hwf).
Qed.

(** ** Changes that leave the game fields alone *)

Lemma wf_with_dialog (st : gui) (title msg : string) :
  wf st -> wf (with_dialog st title msg).
Proof. intros []. by constructor. Qed.

Lemma wf_update_status_label (st : gui) : wf st -> wf (_update_status_label st).
Proof. intros []. by constructor. Qed.

(** ** The dialogs *)

Lemma display_name_ok (c : string) :
  c ∈ COLORS -> exists n, display_name c = Ok n.
Proof.
  unfold COLORS. rewrite !elem_of_cons, elem_of_nil.
  intros [->|[->|[->|[->|[->|[->|[]]]]]]]; by eexists.
Qed.

Lemma mapM_display_name_ok (code : list string) :
  Forall (fun c => c ∈ COLORS) code -> exists ns, mapM display_name code = Ok ns.
Proof.
  induction 1 as [|c code Hc _ [ns IH]]; [by exists []|].
  destruct (display_name_ok c Hc) as [n Hn].
  exists (n :: ns). simpl. by rewrite Hn, bind_Ok, IH.
Qed.

Lemma secret_names_ok (st : gui) :
  wf st -> exists names, secret_names st = Ok names.
Proof.
  intros Hwf. unfold secret_names.
  destruct (mapM_display_name_ok _ (wf_secret_colors st Hwf)) as [ns ->].
  by eexists.
Qed.

Lemma reveal_win_declined (st : gui) (g : rng) :
  wf st -> exists names,
    _reveal_win false st g
    = Ok (with_dialog st "You Win Mastermind!" (win_message st names), g).
Proof.
  intros Hwf. destruct (secret_names_ok st Hwf) as [names Hn].
  exists names. unfold _reveal_win. by rewrite Hn.
Qed.

Lemma reveal_loss_declined (st : gui) (g : rng) :
  wf st -> exists names,
    _reveal_loss false st g = Ok (with_dialog st "Game Over" (loss_message names), g).
Proof.
  intros Hwf. destruct (secret_names_ok st Hwf) as [names Hn].
  exists names. unfold _reveal_loss. by rewrite Hn.
Qed.

Lemma wf_reveal_win (answer : bool) (st : gui) (g : rng) :
  wf st -> exists st' g', _reveal_win answer st g = Ok (st', g') /\ wf st'.
Proof.
  intros Hwf. destruct (secret_names_ok st Hwf) as [names Hn].
  unfold _reveal_win. rewrite Hn, bind_Ok.
  pose proof (wf_with_dialog st "You Win Mastermind!" (win_message st names) Hwf) as Hd.
  destruct answer.
  - destruct (wf_reset_game _ g Hd) as (st' & g' & -> & ? & _). by eexists _, _.
  - by eexists _, _.
Qed.

Lemma wf_reveal_loss (answer : bool) (st : gui) (g : rng) :
  wf st -> exists st' g', _reveal_loss answer st g = Ok (st', g') /\ wf st'.
Proof.
  intros Hwf. destruct (secret_names_ok st Hwf) as [names Hn].
  unfold _reveal_loss. rewrite Hn, bind_Ok.
  pose proof (wf_with_dialog st "Game Over" (loss_message names) Hwf) as Hd.
  destruct answer.
  - destruct (wf_reset_game _ g Hd) as (st' & g' & -> & ? & _). by eexists _, _.
  - by eexists _, _.
Qed.

(** ** A click keeps the window well-formed *)

Lemma check_guess_row_win (st : gui) (gs : list (option string)) (black white : Z) :
  len (secret st) = CODE_LENGTH -> len gs = CODE_LENGTH ->
  check_guess (Some <$> secret st) gs = Ok (black, white) ->
  (black = CODE_LENGTH <-> gs = (Some <$> secret st)).
Proof.
  intros Hs Hg Hcg.
  destruct (check_guess_row st gs Hs Hg) as (Hcg' & _ & _ & _ & Hiff).
  rewrite Hcg' in Hcg. injection Hcg as <- _. exact Hiff.
Qed.

Lemma row_ok_placed (color : string) (pos : nat) (row : row_state) :
  row_ok row -> row_ok (placed color pos row).
Proof.
  unfold row_ok, placed, len. simpl. by rewrite !length_insert.
Qed.

Lemma row_ok_scored (color : string) (pos : nat) (row : row_state) (ff : list string) :
  row_ok row -> len ff = 4 -> row_ok (scored color pos row ff).
Proof.
  unfold row_ok, scored, placed, len. simpl. rewrite !length_insert. tauto.
Qed.

(** Replacing the current row, and possibly moving on to the next one. *)
Lemma wf_replace_row (st : gui) (r' : row_state) (ct' : Z) (over' : bool)
    (label : string) :
  wf st -> game_over st = false -> row_ok r' ->
  (ct' = current_try st
   /\ if over' then solved r' = true /\ guess_state r' = (Some <$> secret st)
      else None ∈ guess_state r' /\ solved r' = false)
  \/ (ct' = current_try st + 1 /\ complete r' /\ solved r' = false
      /\ guess_state r' <> (Some <$> secret st)
      /\ (over' = true <-> ct' >= MAX_TRIES)) ->
  wf (Gui (secret st) ct' (<[Z.to_nat (current_try st) := r']> (rows st)) over' label
          (dialogs st)).
Proof.
  intros Hwf Hopen Hok Hcase.
  pose proof (wf_open st Hwf Hopen) as Hlt. pose proof (wf_try st Hwf) as Htry.
  pose proof (wf_rows_len st Hwf) as Hrows. unfold len in Hrows.
  set (n := Z.to_nat (current_try st)).
  assert (n < length (rows st))%nat as Hn by (unfold n; lia).
  assert (forall (i : nat) r,
            <[n := r']> (rows st) !! i = Some r ->
            (i = n /\ r = r') \/ (i <> n /\ rows st !! i = Some r)) as Hlook.
  { intros i r Hr. destruct (decide (i = n)) as [->|Hne].
    - rewrite list_lookup_insert_eq in Hr by done. left. by injection Hr.
    - rewrite list_lookup_insert_ne in Hr by done. by right. }
  constructor; simpl.
  - apply (wf_secret_len st Hwf).
  - apply (wf_secret_colors st Hwf).
  - unfold len. by rewrite length_insert.
  - apply Forall_insert; [apply (wf_rows_ok st Hwf)|done].
  - destruct Hcase as [[-> _]|[-> _]]; lia.
  - intros ->. destruct Hcase as [[-> _]|(-> & _ & _ & _ & Hiff)]; [done|].
    destruct (decide (current_try st + 1 >= MAX_TRIES)) as [Hge|]; [|lia].
    apply Hiff in Hge. done.
  - intros i r Hr Hi. destruct (Hlook i r Hr) as [[-> ->]|[Hne Hr']].
    + destruct Hcase as [[-> _]|(-> & ? & ? & ? & _)]; [unfold n in Hi; lia|done].
    + apply (wf_past st Hwf i r Hr'). unfold n in Hne.
      destruct Hcase as [[-> _]|[-> _]]; lia.
  - intros i r Hr Hi. destruct (Hlook i r Hr) as [[-> ->]|[Hne Hr']].
    + destruct Hcase as [[-> _]|[-> _]]; unfold n in Hi; lia.
    + apply (wf_future st Hwf i r Hr'). destruct Hcase as [[-> _]|[-> _]]; lia.
  - intros r Hr. destruct Hcase as [[-> Hcur]|(-> & _ & _ & _ & Hiff)].
    + fold n in Hr. rewrite list_lookup_insert_eq in Hr by done.
      by injection Hr as <-.
    + rewrite list_lookup_insert_ne in Hr by (unfold n; lia).
      destruct over'.
      * assert (current_try st + 1 >= MAX_TRIES) as Hge by (by apply Hiff).
        apply lookup_lt_Some in Hr. lia.
      * destruct (wf_future st Hwf _ r Hr) as [-> ?]; [lia|]. split; [by left|done].
Qed.

Lemma wf_palette_click_body (color : string) (st : gui) :
  wf st -> exists st' k, palette_click_body color st = Ok (st', k) /\ wf st'.
Proof.
  intros Hwf. destruct (game_over st) eqn:Hopen.
  { exists st, Return. unfold palette_click_body. by rewrite Hopen. }
  destruct (palette_click_body_cases color st Hwf Hopen)
    as (row & pos & Hrow & Hpos & Hidx & Hcase).
  assert (row_ok row) as Hok
    by (eapply Forall_lookup_1; [apply (wf_rows_ok st Hwf)|done]).
  pose proof (wf_current st Hwf row Hrow) as Hcur. rewrite Hopen in Hcur.
  destruct Hcur as [_ Hsolved].
  pose proof (row_ok_placed color pos row Hok) as Hok1.
  assert (len (guess_state (placed color pos row)) = CODE_LENGTH) as Hlen1
    by apply Hok1.
  pose proof (wf_secret_len st Hwf) as Hsec.
  destruct Hcase as [Hin|white ff Hfull Hcg Hff|black white ff Hfull Hcg Hne Hff Hge
                     |black white ff Hfull Hcg Hne Hff Hlt];
    eexists _, _; (split; [reflexivity|]).
  - apply (wf_replace_row st (placed color pos row) (current_try st) (game_over st)
             (status_label st)); auto.
    left. by rewrite Hopen.
  - apply (wf_replace_row st (with_solved (scored color pos row ff) true)
             (current_try st) true (status_label st)); auto;
      [by apply (row_ok_scored color pos row ff)|].
    left. split; [done|]. split; [done|].
    by apply (check_guess_row_win _ _ CODE_LENGTH white Hsec Hlen1 Hcg).
  - apply (wf_replace_row st (scored color pos row ff) (current_try st + 1) true
             (status_label st)); auto; [by apply row_ok_scored|].
    right. repeat split; try done.
    intros Heq. by apply Hne, (check_guess_row_win _ _ black white Hsec Hlen1 Hcg).
  - apply wf_update_status_label.
    apply (wf_replace_row st (scored color pos row ff) (current_try st + 1)
             (game_over st) (status_label st)); auto; [by apply row_ok_scored|].
    right. rewrite Hopen. repeat split; try done; try lia.
    intros Heq. by apply Hne, (check_guess_row_win _ _ black white Hsec Hlen1 Hcg).
Qed.

(** ** The whole handler *)

Lemma wf_palette_click (color : string) (answer : bool) (st : gui) (g : rng) :
  wf st -> exists st' g', _palette_click color answer st g = Ok (st', g') /\ wf st'.
Proof.
  intros Hwf. unfold _palette_click.
  destruct (wf_palette_click_body color st Hwf) as (st1 & k & -> & Hwf1).
  rewrite bind_Ok. cbv beta iota. destruct k.
  - by exists st1, g.
  - by apply wf_reveal_win.
  - by apply wf_reveal_loss.
Qed.

Lemma reachable_wf (st : gui) : reachable st -> wf st.
Proof.
  induction 1 as [logo g st g' Hinit|st color answer g st' g' _ IH _ Hclick].
  - destruct logo; [|by rewrite init_without_logo in Hinit].
    destruct (wf_init g) as (st1 & g1 & Heq & Hwf). congruence.
  - destruct (wf_palette_click color answer st g IH) as (st1 & g1 & Heq & Hwf).
    congruence.
Qed.

(** ** Reading the session state of a well-formed window *)

Lemma existsb_solved (rs : list row_state) :
  existsb solved rs = true <-> exists (i : nat) r, rs !! i = Some r /\ solved r = true.
Proof.
  rewrite existsb_exists. split.
  - intros (r & Hin & Hr). apply list_elem_of_In, list_elem_of_lookup in Hin as [i Hi].
    by exists i, r.
  - intros (i & r & Hi & Hr). exists r. split; [|done].
    by apply list_elem_of_In, list_elem_of_lookup_2 with i.
Qed.

Lemma session_state_wf (st : gui) :
  wf st ->
  session_state st
  = if game_over st then
      if bool_decide (current_try st < MAX_TRIES) then Won else Lost
    else InProgress.
Proof.
  intros Hwf. unfold session_state. destruct (game_over st) eqn:Hover; [|done].
  pose proof (wf_try st Hwf) as Htry. pose proof (wf_rows_len st Hwf) as Hrows.
  unfold len in Hrows.
  case_bool_decide as Hlt.
  - destruct (lookup_lt_is_Some_2 (rows st) (Z.to_nat (current_try st))) as [r Hr];
      [lia|].
    pose proof (wf_current st Hwf r Hr) as Hcur. rewrite Hover in Hcur.
    destruct Hcur as [Hsolved _].
    assert (existsb solved (rows st) = true) as ->; [|done].
    apply existsb_solved. by exists (Z.to_nat (current_try st)), r.
  - destruct (existsb solved (rows st)) eqn:Hex; [|done].
    apply existsb_solved in Hex as (i & r & Hi & Hr).
    apply lookup_lt_Some in Hi as Hilt.
    destruct (wf_past st Hwf i r Hi) as (_ & Hfalse & _); [lia|]. congruence.
Qed.

Lemma session_in_progress (st : gui) :
  session_state st = InProgress <-> game_over st = false.
Proof.
  unfold session_state. destruct (game_over st); [|done].
  by destruct (existsb solved (rows st)).
Qed.

(** The guess a click submits is the current row with the colour placed. *)
Lemma submits_placed (color : string) (st : gui) (row : row_state) (pos : nat)
    (gs : list (option string)) :
  game_over st = false ->
  rows st !! Z.to_nat (current_try st) = Some row ->
  py_index None (guess_state row) = Ok (Z.of_nat pos) ->
  submits color st gs <->
  gs = guess_state (placed color pos row) /\ None ∉ guess_state (placed color pos row).
Proof.
  intros Hopen Hrow Hidx. unfold submits. split.
  - intros (_ & row' & pos' & Hrow' & Hidx' & -> & Hfull).
    rewrite Hrow in Hrow'. injection Hrow' as <-.
    rewrite Hidx in Hidx'. injection Hidx' as <-.
    rewrite Nat2Z.id in *. done.
  - intros [-> Hfull]. split; [done|]. exists row, (Z.of_nat pos).
    rewrite Nat2Z.id. done.
Qed.

Lemma submits_unique (color : string) (st : gui) (gs gs' : list (option string)) :
  submits color st gs -> submits color st gs' -> gs = gs'.
Proof.
  intros (_ & row & pos & Hrow & Hidx & -> & _) (_ & row' & pos' & Hrow' & Hidx' & -> & _).
  rewrite Hrow in Hrow'. injection Hrow' as <-.
  rewrite Hidx in Hidx'. by injection Hidx' as <-.
Qed.

Lemma wins_iff (st : gui) (gs : list (option string)) :
  wf st -> len gs = CODE_LENGTH -> (wins st gs <-> gs = (Some <$> secret st)).
Proof.
  intros Hwf Hlen. pose proof (wf_secret_len st Hwf) as Hsec.
  destruct (check_guess_row st gs Hsec Hlen) as (Hcg & _ & _ & _ & Hiff).
  unfold wins. rewrite Hcg. rewrite <- Hiff. split.
  - by intros [white [= -> _]].
  - intros ->. by eexists.
Qed.

Lemma not_None_in_secret (code : list string) : None ∉ (Some <$> code).
Proof. intros (c & Hc & _)%list_elem_of_fmap. done. Qed.

Lemma palette_click_body_outcome (color : string) (st : gui) :
  wf st -> game_over st = false ->
  exists st' k, palette_click_body color st = Ok (st', k) /\ wf st'
    /\ secret st' = secret st /\ click_outcome color st st' k.
Proof.
  intros Hwf Hopen.
  destruct (wf_palette_click_body color st Hwf) as (st' & k & Hbody & Hwf').
  exists st', k. split; [done|]. split; [done|].
  pose proof (session_state_wf st' Hwf') as Hstate.
  pose proof (wf_try st Hwf) as Htry. pose proof (wf_open st Hwf Hopen) as Hlt.
  destruct (palette_click_body_cases color st Hwf Hopen)
    as (row & pos & Hrow & Hpos & Hidx & Hcase).
  pose proof (submits_placed color st row pos) as Hsub.
  rewrite Hbody in Hcase.
  inversion Hcase as [Hin Heq|white ff Hfull Hcg Hff Heq
                      |black white ff Hfull Hcg Hne Hff Hge Heq
                      |black white ff Hfull Hcg Hne Hff Hnext Heq];
    subst st' k; (split; [done|]).
  - apply outcome_placed; try done.
    + intros gs Hgs. apply Hsub in Hgs as [_ Hfull]; done.
    + apply session_in_progress. exact Hopen.
  - apply (outcome_won _ _ _ _ (guess_state (placed color pos row))); try done.
    + by apply Hsub.
    + by exists white.
    + rewrite Hstate. simpl. by rewrite bool_decide_eq_true_2.
  - apply (outcome_missed _ _ _ _ (guess_state (placed color pos row))); try done.
    + by apply Hsub.
    + intros [white' Hw]. rewrite Hcg in Hw. by injection Hw as -> _.
    + left. simpl. split; [lia|]. split; [|done].
      rewrite Hstate. simpl. by rewrite bool_decide_eq_false_2 by lia.
  - apply (outcome_missed _ _ _ _ (guess_state (placed color pos row))); try done.
    + by apply Hsub.
    + intros [white' Hw]. rewrite Hcg in Hw. by injection Hw as -> _.
    + right. simpl. split; [lia|]. split; [|done].
      apply session_in_progress. exact Hopen.
Qed.

Lemma filter_all {B : Type} (P : B -> Prop) `{!forall x, Decision (P x)} (l : list B) :
  Forall P l -> filter P l = l.
Proof.
  induction 1 as [|x l Hx _ IH]; [done|].
  by rewrite filter_cons, decide_True, IH.
Qed.

Lemma lost_iff_all_rows_missed (st : gui) :
  wf st ->
  session_state st = Lost
  <-> len (submitted st) = MAX_TRIES /\ Forall (fun gs => ~ wins st gs) (submitted st).
Proof.
  intros Hwf. rewrite (session_state_wf st Hwf).
  pose proof (wf_try st Hwf) as Htry. pose proof (wf_rows_len st Hwf) as Hrows.
  assert (forall (i : nat) r, rows st !! i = Some r -> len (guess_state r) = CODE_LENGTH)
    as Hlen.
  { intros i r Hr. by eapply (Forall_lookup_1 _ _ _ _ (wf_rows_ok st Hwf) Hr). }
  unfold submitted, len in *. split.
  - destruct (game_over st) eqn:Hover; [|done]. case_bool_decide as Hlt; [done|].
    intros _.
    assert (Forall (fun gs => (None ∉ gs) /\ ~ wins st gs) (guess_state <$> rows st))
      as Hall.
    { apply Forall_fmap, Forall_lookup_2. intros i r Hr. simpl.
      apply lookup_lt_Some in Hr as Hi.
      destruct (wf_past st Hwf i r Hr) as (Hfull & _ & Hne); [lia|].
      split; [done|]. rewrite wins_iff; [done..|]. by apply (Hlen i). }
    rewrite filter_all by (eapply Forall_impl; [exact Hall|]; by intros ? []).
    rewrite length_fmap. split; [done|].
    eapply Forall_impl; [exact Hall|]. by intros ? [].
  - intros [Hcount Hnone].
    destruct (game_over st) eqn:Hover.
    + case_bool_decide as Hlt; [|done]. exfalso.
      destruct (lookup_lt_is_Some_2 (rows st) (Z.to_nat (current_try st))) as [r Hr];
        [lia|].
      pose proof (wf_current st Hwf r Hr) as Hcur. rewrite Hover in Hcur.
      destruct Hcur as [_ Hgs].
      rewrite Forall_forall in Hnone. apply (Hnone (guess_state r)).
      * apply list_elem_of_filter. split; [rewrite Hgs; apply not_None_in_secret|].
        apply list_elem_of_fmap. exists r. split; [done|].
        by eapply list_elem_of_lookup_2.
      * apply wins_iff; [done| |done]. by apply (Hlen _ r Hr).
    + exfalso. pose proof (wf_open st Hwf Hover) as Hlt.
      destruct (lookup_lt_is_Some_2 (rows st) (Z.to_nat (current_try st))) as [r Hr];
        [lia|].
      pose proof (wf_current st Hwf r Hr) as Hcur. rewrite Hover in Hcur.
      destruct Hcur as [Hin _].
      assert (guess_state r ∈ guess_state <$> rows st) as Hel.
      { apply list_elem_of_fmap. exists r. split; [done|].
        by eapply list_elem_of_lookup_2. }
      pose proof (length_filter_lt (fun gs : list (option string) => None ∉ gs)
                    _ _ Hel) as Hshort.
      rewrite length_fmap in Hshort. specialize (Hshort ltac:(tauto)). lia.
Qed.

(** ** The sample games are reachable *)

Lemma reachable_play (clicks : list (string * bool)) (st : gui) (g : rng) :
  reachable st -> palette_only clicks = true -> returns (play clicks st g) = true ->
  reachable (state_of (play clicks st g)).
Proof.
  revert st g. induction clicks as [|[color answer] rest IH]; intros st g Hst Hpal Hret.
  - done.
  - simpl in *. apply andb_prop in Hpal as [Hc Hpal]. apply bool_decide_eq_true in Hc.
    destruct (_palette_click color answer st g) as [[st' g']|e] eqn:Hclick; [|done].
    rewrite bind_Ok in *. cbv beta iota in *. apply IH; try done.
    by eapply reach_click.
Qed.

Lemma reachable_run (clicks : list (string * bool)) :
  palette_only clicks = true -> returns (run clicks) = true ->
  reachable (state_of (run clicks)).
Proof.
  unfold run. intros Hpal Hret.
  destruct (__init__ true tape0) as [[st g]|e] eqn:Hinit; [|done].
  rewrite bind_Ok in *. cbv beta iota in *. apply reachable_play; try done.
  by eapply reach_init.
Qed.

Lemma reachable_before_win : reachable before_win.
Proof. apply reachable_run; vm_compute; reflexivity. Qed.

Lemma reachable_before_loss : reachable before_loss.
Proof. apply reachable_run; vm_compute; reflexivity. Qed.

Lemma reachable_won_game : reachable won_game.
Proof. apply reachable_run; vm_compute; reflexivity. Qed.

Lemma reachable_lost_game : reachable lost_game.
Proof. apply reachable_run; vm_compute; reflexivity. Qed.

Lemma wf_before_win : wf before_win.
Proof. apply reachable_wf, reachable_before_win. Qed.

Lemma wf_before_loss : wf before_loss.
Proof. apply reachable_wf, reachable_before_loss. Qed.

Lemma wf_lost_game : wf lost_game.
Proof. apply reachable_wf, reachable_lost_game. Qed.

(** On [before_win] the click of Cyan completes the row as the secret. *)
Lemma before_win_last_peg :
  submits "#38ffff" before_win (Some <$> secret before_win)
  /\ wins before_win (Some <$> secret before_win).
Proof.
  split.
  - split; [vm_compute; reflexivity|]. eexists _, _.
    split; [vm_compute; reflexivity|]. split; [vm_compute; reflexivity|].
    split; [vm_compute; reflexivity|]. apply not_None_in_secret.
  - exists 0. vm_compute. reflexivity.
Qed.

(** On [before_loss] the click of Cyan completes the last row, and misses. *)
Lemma before_loss_last_peg :
  submits "#38ffff" before_loss (Some <$> replicate 4 "#38ffff"%string)
  /\ ~ wins before_loss (Some <$> replicate 4 "#38ffff"%string)
  /\ current_try before_loss = MAX_TRIES - 1.
Proof.
  split; [|split].
  - split; [vm_compute; reflexivity|]. eexists _, _.
    split; [vm_compute; reflexivity|]. split; [vm_compute; reflexivity|].
    split; [vm_compute; reflexivity|]. apply not_None_in_secret.
  - intros [white Hw]. vm_compute in Hw. discriminate.
  - vm_compute. reflexivity.
Qed.

(** ** Scoring *)

(** C1: for sequences of equal length, [check_guess] returns as black the
    number of indices at which secret and guess agree, and as white the sum,
    over the distinct colours of the guess, of the smaller of the colour's
    counts in secret and guess, minus black; the two sample scores of the
    specification come out as (2, 0) and (1, 2). *)
Theorem check_guess_counts :
  (forall (A : Type) (EqA : EqDecision A) (CA : Countable A) (secret guess : list A),
     length secret = length guess ->
     check_guess secret guess
     = Ok (Z.of_nat (exactMatches_spec secret guess), colorMatches_spec secret guess))
  /\ check_guess ["A"; "A"; "B"; "B"]%string ["A"; "A"; "A"; "A"]%string = Ok (2, 0)
  /\ check_guess ["A"; "B"; "C"; "D"]%string ["A"; "C"; "B"; "X"]%string = Ok (1, 2).
Proof.
  split; [|split; vm_compute; reflexivity].
  intros A EqA CA secret guess Hlen.
  rewrite (check_guess_eq secret guess Hlen). unfold colorMatches_spec.
  by rewrite <- black_exactMatches, <- total_distinct.
Qed.

(** An instance: secret A B B against guess B B C. *)
Lemma check_guess_counts_witness :
  length ["A"; "B"; "B"]%string = length ["B"; "B"; "C"]%string
  /\ check_guess ["A"; "B"; "B"]%string ["B"; "B"; "C"]%string
     = Ok (Z.of_nat (exactMatches_spec ["A"; "B"; "B"]%string ["B"; "B"; "C"]%string),
           colorMatches_spec ["A"; "B"; "B"]%string ["B"; "B"; "C"]%string).
Proof.
  split; [reflexivity|].
  apply (proj1 check_guess_counts string _ _ ["A"; "B"; "B"]%string ["B"; "B"; "C"]%string).
  reflexivity.
Defined.

(** C2: for sequences of equal length, the score (black, white) has
    black >= 0, white >= 0 and black + white at most the length. *)
Theorem check_guess_bounds `{Countable A} (secret guess : list A) :
  length secret = length guess ->
  exists black white,
    check_guess secret guess = Ok (black, white)
    /\ 0 <= black /\ 0 <= white /\ black + white <= len secret.
Proof.
  intros Hlen. eexists _, _. split; [by apply check_guess_eq|].
  pose proof (black_nonneg secret guess). pose proof (black_le_total secret guess).
  pose proof (total_le_len secret guess). unfold len in *. lia.
Qed.

(** An instance: secret A B B against guess B B C. *)
Lemma check_guess_bounds_witness :
  length ["A"; "B"; "B"]%string = length ["B"; "B"; "C"]%string
  /\ exists black white,
       check_guess ["A"; "B"; "B"]%string ["B"; "B"; "C"]%string = Ok (black, white)
       /\ 0 <= black /\ 0 <= white /\ black + white <= len ["A"; "B"; "B"]%string.
Proof.
  split; [reflexivity|].
  apply (check_guess_bounds ["A"; "B"; "B"]%string ["B"; "B"; "C"]%string).
  reflexivity.
Defined.

(** C9: for sequences of equal length, scoring the guess against the secret
    and the secret against the guess give the same pair. *)
Theorem check_guess_symmetric `{Countable A} (s g : list A) :
  length s = length g ->
  exists black white,
    check_guess s g = Ok (black, white) /\ check_guess g s = Ok (black, white).
Proof.
  intros Hlen. eexists _, _. split; [by apply check_guess_eq|].
  rewrite (check_guess_eq g s) by done. by rewrite black_sym, total_sym.
Qed.

(** An instance: A B B and B C A, scored both ways. *)
Lemma check_guess_symmetric_witness :
  length ["A"; "B"; "B"]%string = length ["B"; "C"; "A"]%string
  /\ exists black white,
       check_guess ["A"; "B"; "B"]%string ["B"; "C"; "A"]%string = Ok (black, white)
       /\ check_guess ["B"; "C"; "A"]%string ["A"; "B"; "B"]%string = Ok (black, white).
Proof.
  split; [reflexivity|].
  apply (check_guess_symmetric ["A"; "B"; "B"]%string ["B"; "C"; "A"]%string).
  reflexivity.
Defined.

(** ** Feedback *)

(** C8: [format_feedback black white length] returns exactly when both
    counts are non-negative and their sum is at most [length]; the result is
    then [black] times "black", [white] times "white" and the rest "empty",
    [length] markers in all; otherwise it raises ValueError; and
    [format_feedback 2 1 4] is black, black, white, empty. *)
Theorem format_feedback_spec (black white length : Z) :
  (0 <= black /\ 0 <= white /\ black + white <= length ->
   exists fb,
     format_feedback black white length = Ok fb
     /\ fb = replicate (Z.to_nat black) "black"%string
             ++ replicate (Z.to_nat white) "white"%string
             ++ replicate (Z.to_nat (length - black - white)) "empty"%string
     /\ len fb = length)
  /\ (~ (0 <= black /\ 0 <= white /\ black + white <= length) ->
      format_feedback black white length
      = Raise (ValueError "Invalid black/white counts"))
  /\ format_feedback 2 1 4 = Ok ["black"; "black"; "white"; "empty"]%string.
Proof.
  split; [|split; [apply format_feedback_invalid|reflexivity]].
  intros (Hb & Hw & Hl). eexists. split; [by apply format_feedback_ok|].
  split; [reflexivity|].
  eapply format_feedback_length. by apply format_feedback_ok.
Qed.

(** Instances: counts 1 and 2 in length 5; a sum above the length; a negative count. *)
Lemma format_feedback_spec_witness :
  (exists fb,
     format_feedback 1 2 5 = Ok fb
     /\ fb = replicate (Z.to_nat 1) "black"%string
             ++ replicate (Z.to_nat 2) "white"%string
             ++ replicate (Z.to_nat (5 - 1 - 2)) "empty"%string
     /\ len fb = 5)
  /\ format_feedback 3 2 4 = Raise (ValueError "Invalid black/white counts")
  /\ format_feedback (-1) 2 4 = Raise (ValueError "Invalid black/white counts").
Proof.
  split; [apply (proj1 (format_feedback_spec 1 2 5)); lia|].
  split; [apply (proj1 (proj2 (format_feedback_spec 3 2 4))); lia|].
  apply (proj1 (proj2 (format_feedback_spec (-1) 2 4))); lia.
Defined.

(** ** Code generation *)

(** C7: for a length of at least 1 and a non-empty palette, [generate_code]
    returns exactly [length] elements, each a member of the palette. *)
Theorem generate_code_length_members (colors : list string) (length : Z) (g : rng) :
  1 <= length -> colors <> [] ->
  exists code g',
    generate_code colors length g = Ok (code, g')
    /\ len code = length /\ Forall (fun c => c ∈ colors) code.
Proof.
  intros Hlen Hne.
  destruct (generate_code_ok colors length g Hne) as (code & g' & Hg & Hl & Hall).
  exists code, g'. split; [done|]. split; [lia|done].
Qed.

(** An instance: the game's own call, [COLORS] and [CODE_LENGTH], on [tape0]. *)
Lemma generate_code_length_members_witness :
  1 <= CODE_LENGTH /\ COLORS <> []
  /\ exists code g',
    generate_code COLORS CODE_LENGTH tape0 = Ok (code, g')
    /\ len code = CODE_LENGTH /\ Forall (fun c => c ∈ COLORS) code.
Proof.
  split; [unfold CODE_LENGTH; lia|]. split; [discriminate|].
  apply (generate_code_length_members COLORS CODE_LENGTH tape0);
    [unfold CODE_LENGTH; lia|discriminate].
Defined.

(** C6, as the code has it: [generate_code] checks none of its arguments.
    For a length below 1 it returns the empty sequence, whatever the
    palette; it fails exactly when the palette is empty and the length is at
    least 1, with the IndexError of [random.choice]. *)
Theorem generate_code_failure (colors : list string) (length : Z) (g : rng) :
  (length < 1 -> generate_code colors length g = Ok ([], g))
  /\ (1 <= length -> colors = [] ->
      generate_code colors length g
      = Raise (IndexError "Cannot choose from an empty sequence"))
  /\ (raises (generate_code colors length g) <-> 1 <= length /\ colors = []).
Proof.
  assert (length < 1 -> generate_code colors length g = Ok ([], g)) as Hshort.
  { intros Hlt. unfold generate_code. by replace (Z.to_nat length) with 0%nat by lia. }
  assert (1 <= length -> colors = [] ->
          generate_code colors length g
          = Raise (IndexError "Cannot choose from an empty sequence")) as Hempty.
  { intros Hge ->. unfold generate_code.
    destruct (Z.to_nat length) as [|n] eqn:Hn; [lia|]. apply choices_empty_palette. }
  split; [done|]. split; [done|]. split.
  - intros Hraise. destruct (decide (length < 1)) as [Hlt|Hge].
    { by rewrite (Hshort Hlt) in Hraise. }
    split; [lia|]. destruct colors as [|c colors]; [done|].
    destruct (generate_code_ok (c :: colors) length g) as (code & g' & Hg & _); [done|].
    by rewrite Hg in Hraise.
  - intros [Hge Hnil]. by rewrite (Hempty Hge Hnil).
Qed.

(** Instances: length 0 with the game's palette; length 4 with an empty palette. *)
Lemma generate_code_failure_witness :
  generate_code COLORS 0 tape0 = Ok ([], tape0)
  /\ generate_code [] 4 tape0 = Raise (IndexError "Cannot choose from an empty sequence").
Proof.
  split.
  - apply (proj1 (generate_code_failure COLORS 0 tape0)). lia.
  - apply (proj1 (proj2 (generate_code_failure [] 4 tape0))); [lia|reflexivity].
Defined.

(** C6 as stated fails: with length 0, and with an empty palette and
    length 0, [generate_code] returns the empty code and raises nothing. *)
Lemma generate_code_short_length_returns :
  generate_code COLORS 0 tape0 = Ok ([], tape0)
  /\ generate_code [] 0 tape0 = Ok ([], tape0)
  /\ generate_code COLORS (-3) tape0 = Ok ([], tape0).
Proof. repeat split. Qed.

(** ** The session *)

(** C3: from a well-formed session in progress (every window the game
    reaches is one), at whatever attempt index, a palette click leaves the
    session Won exactly when it submits a complete guess that scores as many
    exact matches as the code is long; the attempt index is then the one
    before the click, the handler goes on to the win dialog, and if the
    player declines to play again it returns the Won state with that dialog
    shown. *)
Theorem session_won_exactly (st : gui) (color : string) :
  wf st -> session_state st = InProgress ->
  exists st' k,
    palette_click_body color st = Ok (st', k)
    /\ (session_state st' = Won <-> exists gs, submits color st gs /\ wins st gs)
    /\ (session_state st' = Won ->
        current_try st' = current_try st /\ k = RevealWin
        /\ forall g,
             (forall answer,
                _palette_click color answer st g = _reveal_win answer st' g)
             /\ exists names,
                  _palette_click color false st g
                  = Ok (with_dialog st' "You Win Mastermind!" (win_message st' names),
                        g)).
Proof.
  intros Hwf Hopen. apply session_in_progress in Hopen.
  destruct (palette_click_body_outcome color st Hwf Hopen)
    as (st' & k & Hbody & Hwf' & _ & Hout).
  exists st', k. split; [done|].
  destruct Hout as [Hnone Hst _ _|gs Hsub Hwin Hst Hk Htry
                    |gs Hsub Hmiss _ [(_ & Hst & _)|(_ & Hst & _)]].
  - rewrite Hst. split; [|done]. split; [done|]. intros (gs & Hsub & _).
    by destruct (Hnone gs).
  - split; [split; [by exists gs|done]|]. intros _. split; [done|]. split; [done|].
    intros g. destruct (reveal_win_declined st' g Hwf') as [names Hrev].
    assert (forall answer, _palette_click color answer st g = _reveal_win answer st' g)
      as Hrun by (intros answer; unfold _palette_click; by rewrite Hbody, bind_Ok, Hk).
    split; [done|]. exists names. by rewrite Hrun.
  - rewrite Hst. split; [|done]. split; [done|]. intros (gs' & Hsub' & Hwin).
    by rewrite (submits_unique _ _ _ _ Hsub' Hsub) in Hwin.
  - rewrite Hst. split; [|done]. split; [done|]. intros (gs' & Hsub' & Hwin).
    by rewrite (submits_unique _ _ _ _ Hsub' Hsub) in Hwin.
Qed.

(** An instance: on the second try (attempt index 1) of a game the handler
    has reached, one peg short of the code, the click of the last colour
    leaves the session Won, at the same index, and goes on to the win
    dialog. *)
Lemma session_won_exactly_witness :
  reachable before_win /\ wf before_win /\ session_state before_win = InProgress
  /\ current_try before_win = 1
  /\ exists st' k,
       palette_click_body "#38ffff" before_win = Ok (st', k)
       /\ session_state st' = Won /\ k = RevealWin
       /\ current_try st' = current_try before_win
       /\ forall g, exists names,
            _palette_click "#38ffff" false before_win g
            = Ok (with_dialog st' "You Win Mastermind!" (win_message st' names), g).
Proof.
  split; [apply reachable_before_win|]. split; [apply wf_before_win|].
  split; [vm_compute; reflexivity|]. split; [vm_compute; reflexivity|].
  destruct (session_won_exactly before_win "#38ffff" wf_before_win)
    as (st' & k & Hbody & Hiff & Hwon); [vm_compute; reflexivity|].
  assert (session_state st' = Won) as Hst.
  { apply Hiff. exists (Some <$> secret before_win). apply before_win_last_peg. }
  destruct (Hwon Hst) as (Htry & Hk & Hrun).
  exists st', k. split; [exact Hbody|]. split; [exact Hst|]. split; [exact Hk|].
  split; [exact Htry|]. intros g. apply (Hrun g).
Defined.

(** C4: a well-formed session (every window the game reaches is one) is
    Lost exactly when MAX_TRIES (10) complete guesses are on the board and
    none of them wins; and from a session in progress a click leaves the
    session Lost exactly when it submits a complete guess that does not win
    into the last row, the handler then going on to the loss dialog and, if
    the player declines to play again, returning the Lost state with that
    dialog shown. *)
Theorem session_lost_exactly (st : gui) (color : string) :
  wf st ->
  (session_state st = Lost
   <-> len (submitted st) = MAX_TRIES
       /\ Forall (fun gs => ~ wins st gs) (submitted st))
  /\ (session_state st = InProgress ->
      exists st' k,
        palette_click_body color st = Ok (st', k)
        /\ (session_state st' = Lost
            <-> exists gs, submits color st gs /\ ~ wins st gs
                           /\ current_try st = MAX_TRIES - 1)
        /\ (session_state st' = Lost ->
            k = RevealLoss /\ current_try st' = MAX_TRIES
            /\ forall g,
                 (forall answer,
                    _palette_click color answer st g = _reveal_loss answer st' g)
                 /\ exists names,
                      _palette_click color false st g
                      = Ok (with_dialog st' "Game Over" (loss_message names), g))).
Proof.
  intros Hwf.
  split; [by apply lost_iff_all_rows_missed|].
  intros Hopen. apply session_in_progress in Hopen.
  destruct (palette_click_body_outcome color st Hwf Hopen)
    as (st' & k & Hbody & Hwf' & _ & Hout).
  exists st', k. split; [done|].
  destruct Hout as [Hnone Hst _ _|gs Hsub Hwin Hst Hk Htry
                    |gs Hsub Hmiss Htry [(Hlast & Hst & Hk)|(Hmore & Hst & _)]].
  - rewrite Hst. split; [|done]. split; [done|]. intros (gs & Hsub & _).
    by destruct (Hnone gs).
  - rewrite Hst. split; [|done]. split; [done|]. intros (gs' & Hsub' & Hmiss & _).
    by rewrite (submits_unique _ _ _ _ Hsub' Hsub) in Hmiss.
  - split.
    + split; [|done]. intros _. exists gs. split; [done|]. split; [done|]. lia.
    + intros _. split; [done|]. split; [done|]. intros g.
      destruct (reveal_loss_declined st' g Hwf') as [names Hrev].
      assert (forall answer,
                _palette_click color answer st g = _reveal_loss answer st' g)
        as Hrun by (intros answer; unfold _palette_click; by rewrite Hbody, bind_Ok, Hk).
      split; [done|]. exists names. by rewrite Hrun.
  - rewrite Hst. split; [|done]. split; [done|]. intros (_ & _ & _ & Hct). lia.
Qed.

(** An instance: on the tenth try of a game the handler has reached, three
    pegs placed, a click that misses leaves the session Lost and goes on to
    the loss dialog; and the game of ten missed rows is Lost, with ten
    complete guesses on the board, none of them winning. *)
Lemma session_lost_exactly_witness :
  (reachable before_loss /\ wf before_loss /\ session_state before_loss = InProgress
   /\ exists st' k,
        palette_click_body "#38ffff" before_loss = Ok (st', k)
        /\ session_state st' = Lost /\ k = RevealLoss
        /\ current_try st' = MAX_TRIES
        /\ forall g, exists names,
             _palette_click "#38ffff" false before_loss g
             = Ok (with_dialog st' "Game Over" (loss_message names), g))
  /\ (reachable lost_game /\ wf lost_game /\ session_state lost_game = Lost
      /\ len (submitted lost_game) = MAX_TRIES
      /\ Forall (fun gs => ~ wins lost_game gs) (submitted lost_game)).
Proof.
  split.
  - split; [apply reachable_before_loss|]. split; [apply wf_before_loss|].
    split; [vm_compute; reflexivity|].
    destruct (proj2 (session_lost_exactly before_loss "#38ffff" wf_before_loss))
      as (st' & k & Hbody & Hiff & Hlost); [vm_compute; reflexivity|].
    assert (session_state st' = Lost) as Hst.
    { apply Hiff. exists (Some <$> replicate 4 "#38ffff"%string).
      apply before_loss_last_peg. }
    destruct (Hlost Hst) as (Hk & Htry & Hrun).
    exists st', k. split; [exact Hbody|]. split; [exact Hst|]. split; [exact Hk|].
    split; [exact Htry|]. intros g. apply (Hrun g).
  - split; [apply reachable_lost_game|]. split; [apply wf_lost_game|].
    assert (session_state lost_game = Lost) as Hst by (vm_compute; reflexivity).
    split; [exact Hst|].
    apply (proj1 (session_lost_exactly lost_game "#38ffff" wf_lost_game)), Hst.
Defined.

(** C5, as the code has it: a palette click on a finished session (Won or
    Lost) is ignored: the handler returns without raising anything and
    leaves every row, every other field of the window and the generator as
    they were. *)
Theorem click_after_game_over_ignored (st : gui) (color : string) (answer : bool)
    (g : rng) :
  session_state st <> InProgress ->
  _palette_click color answer st g = Ok (st, g).
Proof.
  intros Hover. unfold _palette_click, palette_click_body.
  destruct (game_over st) eqn:Hg; [done|].
  by apply session_in_progress in Hg.
Qed.

(** An instance: a click on the game won at the second try. *)
Lemma click_after_game_over_ignored_witness :
  session_state won_game <> InProgress
  /\ _palette_click "#38ffff" true won_game tape0 = Ok (won_game, tape0).
Proof.
  split; [vm_compute; discriminate|].
  apply (click_after_game_over_ignored won_game "#38ffff" true tape0).
  vm_compute; discriminate.
Defined.

(** C5 as stated fails: on a session that is Won, a click raises nothing;
    it returns normally, with the window unchanged. *)
Lemma click_after_win_raises_nothing :
  reachable won_game /\ session_state won_game = Won
  /\ _palette_click "#ff6a00" false won_game tape0 = Ok (won_game, tape0)
  /\ returns (_palette_click "#ff6a00" false won_game tape0) = true.
Proof.
  split; [apply reachable_won_game|]. repeat split; vm_compute; reflexivity.
Qed.

(** C10: for sequences of equal length, [check_guess] returns black equal to
    the length exactly when the guess is the secret; so, from a well-formed
    session in progress (every window the game reaches is one), a click ends
    in the win branch exactly when the guess it submits is the secret code. *)
Theorem win_iff_guess_is_secret :
  (forall (A : Type) (EqA : EqDecision A) (CA : Countable A) (secret guess : list A),
     length secret = length guess ->
     exists black white,
       check_guess secret guess = Ok (black, white)
       /\ (black = len secret <-> guess = secret))
  /\ (forall (st : gui) (color : string),
        wf st -> session_state st = InProgress ->
        exists st' k,
          palette_click_body color st = Ok (st', k)
          /\ (k = RevealWin
              <-> exists gs, submits color st gs /\ gs = (Some <$> secret st))).
Proof.
  split.
  { intros A EqA CA secret guess Hlen. eexists _, _.
    split; [by apply check_guess_eq|]. by apply black_full_iff. }
  intros st color Hwf Hopen.
  apply session_in_progress in Hopen.
  destruct (palette_click_body_outcome color st Hwf Hopen)
    as (st' & k & Hbody & Hwf' & _ & Hout).
  exists st', k. split; [done|].
  assert (forall gs, submits color st gs -> len gs = CODE_LENGTH) as Hlen.
  { intros gs (_ & row & pos & Hrow & _ & -> & _). unfold len.
    rewrite length_insert.
    by eapply (Forall_lookup_1 _ _ _ _ (wf_rows_ok st Hwf) Hrow). }
  destruct Hout as [Hnone _ Hk _|gs Hsub Hwin _ Hk _
                    |gs Hsub Hmiss _ [(_ & _ & Hk)|(_ & _ & Hk)]]; rewrite Hk.
  - split; [done|]. intros (gs & Hsub & _). by destruct (Hnone gs).
  - split; [|done]. intros _. exists gs. split; [done|].
    by apply (wins_iff st gs Hwf (Hlen gs Hsub)).
  - split; [done|]. intros (gs' & Hsub' & Heq).
    rewrite (submits_unique _ _ _ _ Hsub' Hsub) in Heq.
    exfalso. by apply Hmiss, (wins_iff st gs Hwf (Hlen gs Hsub)).
  - split; [done|]. intros (gs' & Hsub' & Heq).
    rewrite (submits_unique _ _ _ _ Hsub' Hsub) in Heq.
    exfalso. by apply Hmiss, (wins_iff st gs Hwf (Hlen gs Hsub)).
Qed.

(** Instances: A B B against A B C; on a game the handler has reached, the
    click that completes the row as the secret ends in the win branch, and
    on the tenth try a click that completes the row otherwise does not. *)
Lemma win_iff_guess_is_secret_witness :
  (exists black white,
     check_guess ["A"; "B"; "B"]%string ["A"; "B"; "C"]%string = Ok (black, white)
     /\ (black = len ["A"; "B"; "B"]%string
         <-> ["A"; "B"; "C"]%string = ["A"; "B"; "B"]%string))
  /\ (reachable before_win /\ wf before_win
      /\ session_state before_win = InProgress
      /\ submits "#38ffff" before_win (Some <$> secret before_win)
      /\ exists st' k,
           palette_click_body "#38ffff" before_win = Ok (st', k) /\ k = RevealWin)
  /\ (reachable before_loss /\ wf before_loss
      /\ session_state before_loss = InProgress
      /\ submits "#38ffff" before_loss (Some <$> replicate 4 "#38ffff"%string)
      /\ exists st' k,
           palette_click_body "#38ffff" before_loss = Ok (st', k) /\ k <> RevealWin).
Proof.
  split; [|split].
  - apply (proj1 win_iff_guess_is_secret string _ _). reflexivity.
  - split; [apply reachable_before_win|]. split; [apply wf_before_win|].
    split; [vm_compute; reflexivity|]. split; [apply before_win_last_peg|].
    destruct (proj2 win_iff_guess_is_secret before_win "#38ffff" wf_before_win)
      as (st' & k & Hbody & Hiff); [vm_compute; reflexivity|].
    exists st', k. split; [exact Hbody|].
    apply Hiff. exists (Some <$> secret before_win).
    split; [apply before_win_last_peg|reflexivity].
  - split; [apply reachable_before_loss|]. split; [apply wf_before_loss|].
    split; [vm_compute; reflexivity|]. split; [apply before_loss_last_peg|].
    destruct (proj2 win_iff_guess_is_secret before_loss "#38ffff" wf_before_loss)
      as (st' & k & Hbody & Hiff); [vm_compute; reflexivity|].
    exists st', k. split; [exact Hbody|].
    intros Hk. apply Hiff in Hk as (gs & Hsub & Hgs).
    rewrite (submits_unique _ _ _ _ Hsub (proj1 before_loss_last_peg)) in Hgs.
    vm_compute in Hgs. discriminate.
Defined.

(** ** Further properties *)

(** X1: [check_guess] on sequences of different lengths raises ValueError. *)
Theorem check_guess_length_mismatch `{Countable A} (secret guess : list A) :
  length secret <> length guess ->
  check_guess secret guess = Raise (ValueError "Secret and guess must be same length").
Proof. apply check_guess_mismatch. Qed.

(** An instance: two colours against one. *)
Lemma check_guess_length_mismatch_witness :
  length ["A"; "B"]%string <> length ["A"]%string
  /\ check_guess ["A"; "B"]%string ["A"]%string
     = Raise (ValueError "Secret and guess must be same length").
Proof.
  split; [discriminate|].
  apply (check_guess_length_mismatch ["A"; "B"]%string ["A"]%string). discriminate.
Defined.

(** X2: a guess equal to the secret scores (length, 0). *)
Theorem check_guess_identity `{Countable A} (secret : list A) :
  check_guess secret secret = Ok (len secret, 0).
Proof.
  rewrite check_guess_eq by done.
  assert (black_of secret secret = len secret) as Hb by (by apply black_full_iff).
  assert (total_of secret secret = len secret) as Ht.
  { rewrite <- (guess_by_colour secret). apply py_sum_fmap_ext. intros c _. lia. }
  rewrite Hb, Ht. do 2 f_equal. lia.
Qed.

(** X3: on a reachable window a palette click raises nothing, whatever the
    colour, the player's answer to a dialog and the generator's draws. *)
Theorem palette_click_never_raises (st : gui) (color : string) (answer : bool)
    (g : rng) :
  reachable st -> exists st' g', _palette_click color answer st g = Ok (st', g').
Proof.
  intros Hreach. apply reachable_wf in Hreach.
  destruct (wf_palette_click color answer st g Hreach) as (st' & g' & Hclick & _).
  by exists st', g'.
Qed.

(** An instance: the losing click, answered by playing again. *)
Lemma palette_click_never_raises_witness :
  reachable before_loss
  /\ exists st' g', _palette_click "#38ffff" true before_loss tape0 = Ok (st', g').
Proof.
  split; [apply reachable_before_loss|].
  apply (palette_click_never_raises before_loss "#38ffff" true tape0).
  apply reachable_before_loss.
Defined.

(** X4: [_reset_game] on a reachable window draws a new code with
    [generate_code] and leaves a session in progress at attempt index 0 with
    all [MAX_TRIES] rows cleared and none solved. *)
Theorem reset_game_fresh (st : gui) (g : rng) :
  reachable st ->
  exists st' g',
    _reset_game st g = Ok (st', g')
    /\ generate_code COLORS CODE_LENGTH g = Ok (secret st', g')
    /\ session_state st' = InProgress /\ current_try st' = 0
    /\ len (rows st') = MAX_TRIES
    /\ Forall (fun r => guess_state r = [None; None; None; None] /\ solved r = false)
         (rows st').
Proof.
  intros Hreach. apply reachable_wf in Hreach as Hwf.
  destruct (wf_reset_game st g Hwf) as (st' & g' & Hreset & Hwf' & Htry & Hopen & Hblank & _).
  exists st', g'. split; [done|]. split.
  { unfold _reset_game in Hreset.
    destruct (generate_code COLORS CODE_LENGTH g) as [[code g1]|e]; [|done].
    rewrite bind_Ok in Hreset. cbv beta iota in Hreset. by injection Hreset as <- <-. }
  split; [by apply session_in_progress|]. split; [done|].
  split; [apply (wf_rows_len st' Hwf')|].
  eapply Forall_impl; [exact Hblank|]. by intros r (_ & -> & ->).
Qed.

(** An instance: the reset of the game won at the second try. *)
Lemma reset_game_fresh_witness :
  reachable won_game
  /\ exists st' g',
       _reset_game won_game tape0 = Ok (st', g')
       /\ generate_code COLORS CODE_LENGTH tape0 = Ok (secret st', g')
       /\ session_state st' = InProgress /\ current_try st' = 0
       /\ len (rows st') = MAX_TRIES
       /\ Forall (fun r => guess_state r = [None; None; None; None] /\ solved r = false)
            (rows st').
Proof.
  split; [apply reachable_won_game|].
  apply (reset_game_fresh won_game tape0). apply reachable_won_game.
Defined.

(** * Further properties of the core functions *)

(** ** Score and feedback together *)

Lemma py_count_app `{EqDecision A} (c : A) (xs ys : list A) :
  py_count c (xs ++ ys) = py_count c xs + py_count c ys.
Proof.
  unfold py_count, len. rewrite filter_app, length_app. lia.
Qed.

Lemma py_count_replicate `{EqDecision A} (c x : A) (k : nat) :
  py_count c (replicate k x) = if decide (x = c) then Z.of_nat k else 0.
Proof.
  unfold py_count, len. induction k as [|k IH]; simpl replicate.
  - by destruct (decide (x = c)).
  - rewrite filter_cons. destruct (decide (x = c)); simpl length; lia.
Qed.

Lemma py_count_repeat `{EqDecision A} (c x : A) (n : Z) :
  py_count c (py_repeat x n) = if decide (x = c) then Z.max 0 n else 0.
Proof.
  unfold py_repeat. rewrite py_count_replicate. destruct (decide (x = c)); lia.
Qed.

Lemma check_guess_Ok_inv `{Countable A} (s g : list A) (black white : Z) :
  check_guess s g = Ok (black, white) ->
  length s = length g /\ black = black_of s g /\ white = total_of s g - black_of s g.
Proof.
  intros Hcg. destruct (decide (length s = length g)) as [Hlen|Hne].
  - rewrite (check_guess_eq s g Hlen) in Hcg. by injection Hcg as <- <-.
  - by rewrite (check_guess_mismatch s g Hne) in Hcg.
Qed.

(** X5: whatever [check_guess] returns for a secret is accepted by
    [format_feedback] with the secret's length, and the feedback is a tally
    of the score: as many "black" as black, as many "white" as white, the
    rest "empty". *)
Theorem score_feedback_tally `{Countable A} (secret guess : list A) (black white : Z) :
  check_guess secret guess = Ok (black, white) ->
  exists fb,
    format_feedback black white (len secret) = Ok fb
    /\ len fb = len secret
    /\ py_count "black"%string fb = black
    /\ py_count "white"%string fb = white
    /\ py_count "empty"%string fb = len secret - black - white.
Proof.
  intros (Hlen & -> & ->)%check_guess_Ok_inv.
  pose proof (black_nonneg secret guess) as Hb.
  pose proof (black_le_total secret guess) as Hbt.
  pose proof (total_le_len secret guess) as Htl.
  assert (len guess = len secret) as Hl by (unfold len; lia). rewrite Hl in Htl.
  eexists. split; [apply format_feedback_ok; lia|].
  split; [eapply format_feedback_length; apply format_feedback_ok; lia|].
  rewrite !py_count_app, !py_count_repeat.
  repeat split; repeat (destruct (decide _) as [|]; try done); lia.
Qed.

(** An instance: the specification's mixed sample. *)
Lemma score_feedback_tally_witness :
  check_guess ["A"; "B"; "C"; "D"]%string ["A"; "C"; "B"; "X"]%string = Ok (1, 2)
  /\ exists fb,
       format_feedback 1 2 (len ["A"; "B"; "C"; "D"]%string) = Ok fb
       /\ len fb = len ["A"; "B"; "C"; "D"]%string
       /\ py_count "black"%string fb = 1
       /\ py_count "white"%string fb = 2
       /\ py_count "empty"%string fb = len ["A"; "B"; "C"; "D"]%string - 1 - 2.
Proof.
  split; [vm_compute; reflexivity|].
  apply (score_feedback_tally ["A"; "B"; "C"; "D"]%string ["A"; "C"; "B"; "X"]%string).
  vm_compute; reflexivity.
Defined.

(** ** _draw_feedback *)

Lemma itemconfig_out_of_range (fills : list string) (i : Z) (color : string) :
  len fills <= i ->
  itemconfig fills i color = Raise (IndexError "list index out of range").
Proof.
  intros Hi. unfold itemconfig, py_getitem, norm_index, len in *.
  rewrite bool_decide_eq_false_2 by lia. by rewrite bool_decide_eq_false_2 by lia.
Qed.

Lemma draw_feedback_from_eq (feedback fills : list string) (n : nat) :
  (n + length feedback <= length fills)%nat ->
  draw_feedback_from (Z.of_nat n) feedback fills
  = Ok (take n fills ++ (feedback_color <$> feedback)
        ++ drop (n + length feedback) fills).
Proof.
  revert fills n. induction feedback as [|v rest IH]; intros fills n Hlen.
  - simpl. by rewrite Nat.add_0_r, take_drop.
  - simpl length in Hlen. simpl draw_feedback_from.
    rewrite itemconfig_ok by (unfold len; lia). rewrite bind_Ok, Nat2Z.id.
    replace (Z.of_nat n + 1) with (Z.of_nat (S n)) by lia.
    rewrite IH by (rewrite length_insert; lia).
    rewrite drop_insert_lt by lia.
    rewrite (take_S_r _ _ (feedback_color v))
      by (apply list_lookup_insert_eq; lia).
    rewrite take_insert_ge by lia.
    rewrite fmap_cons, <- app_assoc.
    simpl length.
    replace (n + S (length rest))%nat with (S n + length rest)%nat by lia.
    reflexivity.
Qed.

Lemma draw_feedback_from_overflow (feedback fills : list string) (n : nat) :
  (n <= length fills < n + length feedback)%nat ->
  draw_feedback_from (Z.of_nat n) feedback fills
  = Raise (IndexError "list index out of range").
Proof.
  revert fills n. induction feedback as [|v rest IH]; intros fills n Hlen.
  - simpl in Hlen. lia.
  - simpl length in Hlen. simpl draw_feedback_from.
    destruct (decide (n = length fills)) as [->|Hne].
    + by rewrite itemconfig_out_of_range by (unfold len; lia).
    + rewrite itemconfig_ok by (unfold len; lia). rewrite bind_Ok.
      replace (Z.of_nat n + 1) with (Z.of_nat (S n)) by lia.
      apply IH. rewrite length_insert. lia.
Qed.

Lemma draw_feedback_fits (fills feedback : list string) :
  len feedback <= len fills ->
  _draw_feedback fills feedback
  = Ok ((feedback_color <$> feedback) ++ drop (length feedback) fills).
Proof.
  unfold _draw_feedback, len. intros Hlen. change 0 with (Z.of_nat 0).
  by rewrite (draw_feedback_from_eq feedback fills 0) by lia.
Qed.

(** X6: [_draw_feedback] recolours the first feedback pegs, one per marker
    and in order (green for "black", yellow for "white", red otherwise), and
    leaves the pegs after them as they were; with more markers than pegs it
    raises IndexError. *)
Theorem draw_feedback_spec (fills feedback : list string) :
  (len feedback <= len fills ->
   _draw_feedback fills feedback
   = Ok ((feedback_color <$> feedback) ++ drop (length feedback) fills))
  /\ (len fills < len feedback ->
      _draw_feedback fills feedback = Raise (IndexError "list index out of range")).
Proof.
  split; [apply draw_feedback_fits|].
  unfold _draw_feedback, len. intros Hlen.
  apply (draw_feedback_from_overflow feedback fills 0). lia.
Qed.

(** Instances: three markers on four pegs, and five markers on four pegs. *)
Lemma draw_feedback_spec_witness :
  _draw_feedback ["lightgray"; "lightgray"; "lightgray"; "lightgray"]%string
                 ["black"; "white"; "empty"]%string
  = Ok ["#39ff14"; "#f8ff00"; "#ff5555"; "lightgray"]%string
  /\ _draw_feedback ["lightgray"; "lightgray"; "lightgray"; "lightgray"]%string
                    ["black"; "black"; "black"; "black"; "black"]%string
     = Raise (IndexError "list index out of range").
Proof.
  split.
  - apply (proj1 (draw_feedback_spec
                    ["lightgray"; "lightgray"; "lightgray"; "lightgray"]%string
                    ["black"; "white"; "empty"]%string)).
    vm_compute. discriminate.
  - apply (proj2 (draw_feedback_spec
                    ["lightgray"; "lightgray"; "lightgray"; "lightgray"]%string
                    ["black"; "black"; "black"; "black"; "black"]%string)).
    vm_compute. reflexivity.
Defined.

(** ** Every code can be drawn *)

Lemma choices_follow_tape (colors : list string) (d : nat -> nat) (js : list nat)
    (code : list string) (k : nat) :
  Forall2 (fun j c => colors !! j = Some c) js code ->
  (forall i j, js !! i = Some j -> d (k + i)%nat = j) ->
  choices colors (length code) {| draws := d; cursor := k |}
  = Ok (code, {| draws := d; cursor := (k + length code)%nat |}).
Proof.
  intros Hjs. revert k. induction Hjs as [|j c js code Hj _ IH]; intros k Hd.
  - simpl. by rewrite Nat.add_0_r.
  - simpl length. simpl choices.
    assert (d k = j) as Hk by (rewrite <- (Nat.add_0_r k); by apply Hd).
    apply lookup_lt_Some in Hj as Hlt.
    assert (random_choice colors {| draws := d; cursor := k |}
            = Ok (c, {| draws := d; cursor := S k |})) as ->.
    { unfold random_choice, randbelow. destruct colors as [|c0 colors]; [done|].
      simpl draws. simpl cursor. rewrite Hk, Nat.mod_small by done. by rewrite Hj. }
    rewrite bind_Ok. cbv beta iota.
    rewrite (IH (S k)).
    + rewrite bind_Ok. cbv beta iota. do 3 f_equal. lia.
    + intros i j' Hi. rewrite <- (Hd (S i) j' Hi). f_equal. lia.
Qed.

Lemma palette_positions (colors code : list string) :
  Forall (fun c => c ∈ colors) code ->
  exists js : list nat, Forall2 (fun j c => colors !! j = Some c) js code.
Proof.
  induction 1 as [|c code Hc _ [js IH]]; [by exists []|].
  apply list_elem_of_lookup in Hc as [j Hj]. exists (j :: js). by constructor.
Qed.

(** X7: every sequence of palette members, repeated colours included, is a
    code that [generate_code] returns for some outcome of the random draws. *)
Theorem generate_code_reaches_every_code (colors code : list string) :
  Forall (fun c => c ∈ colors) code ->
  exists g g', generate_code colors (len code) g = Ok (code, g').
Proof.
  intros Hall. destruct (palette_positions colors code Hall) as [js Hjs].
  exists {| draws := fun n => default 0%nat (js !! n); cursor := 0 |}.
  eexists. unfold generate_code, len. rewrite Nat2Z.id.
  apply (choices_follow_tape colors _ js code 0 Hjs).
  intros i j Hi. simpl. by rewrite Hi.
Qed.

(** An instance: a code of one colour four times over. *)
Lemma generate_code_reaches_every_code_witness :
  Forall (fun c => c ∈ COLORS) ["#ff6a00"; "#ff6a00"; "#ff6a00"; "#ff6a00"]%string
  /\ exists g g',
       generate_code COLORS (len ["#ff6a00"; "#ff6a00"; "#ff6a00"; "#ff6a00"]%string) g
       = Ok (["#ff6a00"; "#ff6a00"; "#ff6a00"; "#ff6a00"]%string, g').
Proof.
  assert (Forall (fun c => c ∈ COLORS)
            ["#ff6a00"; "#ff6a00"; "#ff6a00"; "#ff6a00"]%string) as Hall
    by (repeat constructor).
  split; [exact Hall|].
  apply (generate_code_reaches_every_code COLORS _ Hall).
Defined.

(** ** The names of the secret *)

Lemma display_name_Ok_inv (c n : string) :
  display_name c = Ok n ->
  (c, n) ∈ [("#38ffff", "Cyan"); ("#ff6a00", "Orange"); ("#ccf300", "Lime");
            ("#ff5e9c", "Pink"); ("#5a7af5", "Blue"); ("#b277ff", "Violet")]%string.
Proof.
  unfold display_name. destruct (DISPLAY_NAMES !! c) as [n'|] eqn:Hc; [|done].
  intros [= <-]. unfold DISPLAY_NAMES in Hc. by apply elem_of_list_to_map_2 in Hc.
Qed.

Lemma display_name_inj (c1 c2 n : string) :
  display_name c1 = Ok n -> display_name c2 = Ok n -> c1 = c2.
Proof.
  intros H1%display_name_Ok_inv H2%display_name_Ok_inv.
  rewrite !elem_of_cons, elem_of_nil in H1, H2.
  destruct H1 as [H1|[H1|[H1|[H1|[H1|[H1|[]]]]]]]; injection H1 as -> ->;
    destruct H2 as [H2|[H2|[H2|[H2|[H2|[H2|[]]]]]]]; by injection H2 as ->.
Qed.

Lemma mapM_display_name_inj (l1 l2 ns : list string) :
  mapM display_name l1 = Ok ns -> mapM display_name l2 = Ok ns -> l1 = l2.
Proof.
  revert l2 ns. induction l1 as [|c1 l1 IH]; intros l2 ns H1 H2.
  - injection H1 as <-. destruct l2 as [|c2 l2]; [done|]. simpl in H2.
    destruct (display_name c2); [|done]. rewrite bind_Ok in H2.
    by destruct (mapM display_name l2).
  - simpl in H1. destruct (display_name c1) as [n1|] eqn:Hn1; [|done].
    rewrite bind_Ok in H1. destruct (mapM display_name l1) as [ns1|] eqn:Hl1; [|done].
    injection H1 as <-. destruct l2 as [|c2 l2]; [done|]. simpl in H2.
    destruct (display_name c2) as [n2|] eqn:Hn2; [|done].
    rewrite bind_Ok in H2. destruct (mapM display_name l2) as [ns2|] eqn:Hl2; [|done].
    injection H2 as <- <-. f_equal; [by eapply display_name_inj|by eapply IH].
Qed.

Lemma mapM_display_name_length (l ns : list string) :
  mapM display_name l = Ok ns -> length ns = length l.
Proof.
  revert ns. induction l as [|c l IH]; intros ns Hns.
  - by injection Hns as <-.
  - simpl in Hns. destruct (display_name c); [|done]. rewrite bind_Ok in Hns.
    destruct (mapM display_name l) as [ns1|]; [|done]. injection Hns as <-.
    simpl. by rewrite (IH ns1).
Qed.

(** X8: on a reachable window [reveal_secret_quiet] raises nothing and
    returns [CODE_LENGTH] display names; the names tell the secret: two
    windows that reveal the same names hold the same secret. *)
Theorem reveal_secret_quiet_names (st : gui) :
  reachable st ->
  exists names,
    reveal_secret_quiet st = Ok names /\ len names = CODE_LENGTH
    /\ forall st', reveal_secret_quiet st' = Ok names -> secret st' = secret st.
Proof.
  intros Hwf%reachable_wf. unfold reveal_secret_quiet.
  destruct (mapM_display_name_ok _ (wf_secret_colors st Hwf)) as [names Hnames].
  exists names. split; [done|]. split.
  - unfold len. rewrite (mapM_display_name_length _ _ Hnames).
    apply (wf_secret_len st Hwf).
  - intros st' Hst'. by eapply mapM_display_name_inj.
Qed.

(** An instance: the game won at the second try. *)
Lemma reveal_secret_quiet_names_witness :
  reachable won_game
  /\ exists names,
       reveal_secret_quiet won_game = Ok names /\ len names = CODE_LENGTH
       /\ forall st', reveal_secret_quiet st' = Ok names -> secret st' = secret won_game.
Proof.
  split; [apply reachable_won_game|].
  apply (reveal_secret_quiet_names won_game reachable_won_game).
Defined.

(** X9: with a colour in the secret that has no entry in [DISPLAY_NAMES],
    [reveal_secret_quiet] raises KeyError for the first such colour. *)
Theorem reveal_secret_quiet_unknown_colour (st : gui) (known : list string)
    (c : string) (rest : list string) :
  secret st = known ++ c :: rest ->
  Forall (fun k => is_Some (DISPLAY_NAMES !! k)) known ->
  DISPLAY_NAMES !! c = None ->
  reveal_secret_quiet st = Raise (KeyError c).
Proof.
  intros Hs Hknown Hc. unfold reveal_secret_quiet. rewrite Hs. clear Hs.
  assert (display_name c = Raise (KeyError c)) as Hraise
    by (unfold display_name; by rewrite Hc).
  induction Hknown as [|k known [n Hk] _ IH].
  - change (mapM display_name ([] ++ c :: rest))
      with (n ← display_name c; ns ← mapM display_name rest; Ok (n :: ns)).
    by rewrite Hraise.
  - change (mapM display_name ((k :: known) ++ c :: rest))
      with (n ← display_name k; ns ← mapM display_name (known ++ c :: rest);
            Ok (n :: ns)).
    assert (display_name k = Ok n) as -> by (unfold display_name; by rewrite Hk).
    by rewrite bind_Ok, IH.
Qed.

(** An instance: a secret whose second colour is not one of the palette. *)
Lemma reveal_secret_quiet_unknown_colour_witness :
  reveal_secret_quiet (Gui ["#38ffff"; "red"; "#ff6a00"]%string 0 [] false EmptyString [])
  = Raise (KeyError "red").
Proof.
  apply (reveal_secret_quiet_unknown_colour _ ["#38ffff"%string] "red"%string
           ["#ff6a00"%string]).
  - reflexivity.
  - repeat constructor. vm_compute. eauto.
  - vm_compute. reflexivity.
Defined.

(** * The click handler in closed form *)

Lemma palette_click_body_result (color : string) (st : gui) (row : row_state)
    (pos : nat) :
  game_over st = false -> 0 <= current_try st ->
  rows st !! Z.to_nat (current_try st) = Some row -> row_ok row ->
  py_index None (guess_state row) = Ok (Z.of_nat pos) ->
  guess_state row !! pos = Some None ->
  palette_click_body color st = click_result color st row pos.
Proof.
  intros Hopen Htry Hrow (Hpf & Hgs & Hfb) Hidx Hpos.
  apply lookup_lt_Some in Hrow as Hn. apply lookup_lt_Some in Hpos as Hposlt.
  unfold len in *.
  unfold palette_click_body, click_result.
  rewrite Hopen, (py_getitem_ok _ _ row Htry Hrow), bind_Ok, Hidx.
  rewrite py_setitem_ok by (unfold len; lia). rewrite bind_Ok.
  rewrite itemconfig_ok by (unfold len; lia). rewrite bind_Ok, Nat2Z.id.
  change (with_guess row (<[pos:=color]> (peg_fill row))
            (<[pos:=Some color]> (guess_state row))) with (placed color pos row).
  rewrite store_row_ok by (unfold len; lia). rewrite bind_Ok.
  unfold py_in.
  change (<[pos:=Some color]> (guess_state row))
    with (guess_state (placed color pos row)).
  destruct (decide (None ∈ guess_state (placed color pos row))) as [Hin|Hnin].
  { by rewrite bool_decide_eq_true_2. }
  rewrite bool_decide_eq_false_2 by done. simpl negb. cbv iota.
  change (secret (put_row st (placed color pos row))) with (secret st).
  destruct (check_guess (Some <$> secret st) (guess_state (placed color pos row)))
    as [[black white]|e]; [|done].
  rewrite !bind_Ok. cbv beta iota.
  destruct (format_feedback black white CODE_LENGTH) as [fb|e] eqn:Hfmt; [|done].
  rewrite !bind_Ok.
  apply format_feedback_length in Hfmt as Hfblen. unfold len in Hfblen.
  rewrite draw_feedback_fits by (change (fb_fill (placed color pos row)) with (fb_fill row);
                    unfold len, CODE_LENGTH in *; lia).
  rewrite drop_ge, app_nil_r
    by (change (fb_fill (placed color pos row)) with (fb_fill row);
        unfold CODE_LENGTH in *; lia).
  rewrite bind_Ok.
  change (with_fb (placed color pos row) (feedback_color <$> fb))
    with (scored color pos row (feedback_color <$> fb)).
  rewrite store_row_ok
    by (unfold put_row, len; simpl; rewrite length_insert; lia).
  rewrite bind_Ok, put_row_put_row. unfold scored_result.
  destruct (decide (black = CODE_LENGTH)) as [Hwin|Hmiss].
  - rewrite bool_decide_eq_true_2 by done.
    rewrite store_row_ok
      by (unfold put_row, len; simpl; rewrite length_insert; lia).
    by rewrite bind_Ok, put_row_put_row.
  - rewrite bool_decide_eq_false_2 by done.
    change (with_current_try (put_row st (scored color pos row (feedback_color <$> fb)))
              (current_try (put_row st (scored color pos row (feedback_color <$> fb)))
               + 1))
      with (next_try st (scored color pos row (feedback_color <$> fb))).
    change (current_try (next_try st (scored color pos row (feedback_color <$> fb))))
      with (current_try st + 1).
    destruct (decide (current_try st + 1 >= MAX_TRIES)).
    + by rewrite bool_decide_eq_true_2.
    + by rewrite bool_decide_eq_false_2.
Qed.

(** On a well-formed window in progress the scoring of a complete row
    succeeds. *)
Lemma row_feedback_ok (st : gui) (gs : list (option string)) :
  len (secret st) = CODE_LENGTH -> len gs = CODE_LENGTH ->
  exists black white fb,
    check_guess (Some <$> secret st) gs = Ok (black, white)
    /\ format_feedback black white CODE_LENGTH = Ok fb
    /\ row_feedback st gs = Ok (feedback_color <$> fb).
Proof.
  intros Hs Hg. destruct (check_guess_row st gs Hs Hg) as (Hcg & Hb & Hw & Hbw & _).
  eexists _, _, _. split; [exact Hcg|]. split; [by apply format_feedback_ok|].
  unfold row_feedback. rewrite Hcg, bind_Ok. cbv beta iota.
  by rewrite format_feedback_ok.
Qed.

Lemma wf_current_row (st : gui) :
  wf st -> game_over st = false ->
  exists row (pos : nat),
    rows st !! Z.to_nat (current_try st) = Some row /\ row_ok row
    /\ solved row = false
    /\ py_index None (guess_state row) = Ok (Z.of_nat pos)
    /\ guess_state row !! pos = Some None.
Proof.
  intros Hwf Hopen. pose proof (wf_open st Hwf Hopen) as Hlt.
  pose proof (wf_try st Hwf) as Htry. pose proof (wf_rows_len st Hwf) as Hrows.
  unfold len in Hrows.
  destruct (lookup_lt_is_Some_2 (rows st) (Z.to_nat (current_try st))) as [row Hrow];
    [lia|].
  pose proof (wf_current st Hwf row Hrow) as Hcur. rewrite Hopen in Hcur.
  destruct Hcur as [Hnone Hsolved].
  destruct (py_index_elem None (guess_state row) Hnone) as (pos & Hidx & Hpos).
  exists row, pos. repeat split; try done.
  all: by eapply (Forall_lookup_1 _ _ _ _ (wf_rows_ok st Hwf) Hrow).
Qed.

(** An accepted click either places a peg, or places the last peg of the
    row and scores it. *)
Lemma palette_click_body_drawn (color : string) (st : gui) :
  wf st -> game_over st = false ->
  exists row (pos : nat),
    rows st !! Z.to_nat (current_try st) = Some row /\ row_ok row
    /\ solved row = false
    /\ py_index None (guess_state row) = Ok (Z.of_nat pos)
    /\ guess_state row !! pos = Some None
    /\ ((None ∈ guess_state (placed color pos row)
         /\ palette_click_body color st = Ok (put_row st (placed color pos row), Return))
        \/ ((None ∉ guess_state (placed color pos row))
            /\ exists black white fb,
                check_guess (Some <$> secret st) (guess_state (placed color pos row))
                = Ok (black, white)
                /\ format_feedback black white CODE_LENGTH = Ok fb
                /\ row_feedback st (guess_state (placed color pos row))
                   = Ok (feedback_color <$> fb)
                /\ palette_click_body color st
                   = Ok (scored_result color st row pos black (feedback_color <$> fb)))).
Proof.
  intros Hwf Hopen.
  destruct (wf_current_row st Hwf Hopen) as (row & pos & Hrow & Hok & Hsolved & Hidx & Hpos).
  exists row, pos. do 5 (split; [done|]).
  pose proof (wf_try st Hwf) as Htry.
  rewrite (palette_click_body_result color st row pos) by (done || lia).
  unfold click_result.
  destruct (decide (None ∈ guess_state (placed color pos row))) as [Hin|Hnin];
    [by left|right].
  split; [done|].
  destruct (row_feedback_ok st (guess_state (placed color pos row)))
    as (black & white & fb & Hcg & Hfmt & Hfeed).
  { apply (wf_secret_len st Hwf). }
  { apply (row_ok_placed color pos row Hok). }
  exists black, white, fb. rewrite Hcg, bind_Ok. cbv beta iota.
  by rewrite Hfmt, bind_Ok.
Qed.

(** * The window shows the state of the game *)

Lemma py_index_cons_ne `{EqDecision A} (x y : A) (ys : list A) :
  y <> x -> py_index x (y :: ys) = (i ← py_index x ys; Ok (1 + i)).
Proof. intros Hne. simpl. by rewrite decide_False. Qed.

Lemma py_index_left (cs : list string) (rest : list (option string)) :
  py_index None ((Some <$> cs) ++ None :: rest) = Ok (Z.of_nat (length cs)).
Proof.
  induction cs as [|c cs IH]; [reflexivity|].
  rewrite fmap_cons, <- app_comm_cons, py_index_cons_ne by done.
  rewrite IH, bind_Ok. f_equal. simpl length. lia.
Qed.

Lemma left_filled_insert (gs : list (option string)) (pos : nat) (c : string) :
  left_filled gs -> py_index None gs = Ok (Z.of_nat pos) ->
  gs !! pos = Some None ->
  left_filled (<[pos := Some c]> gs).
Proof.
  intros (cs & k & ->) Hidx Hpos. destruct k as [|k].
  { simpl in Hpos. rewrite app_nil_r in Hpos.
    rewrite list_lookup_fmap in Hpos. by destruct (cs !! pos). }
  simpl replicate in *. rewrite py_index_left in Hidx.
  injection Hidx as Hidx. apply Nat2Z.inj in Hidx. subst pos.
  exists (cs ++ [c]), k.
  rewrite <- (Nat.add_0_r (length cs)), <- (length_fmap Some cs), insert_app_r.
  simpl. by rewrite fmap_app, <- app_assoc.
Qed.

Lemma row_drawn_secret (st st' : gui) (r : row_state) :
  secret st' = secret st -> row_drawn st r -> row_drawn st' r.
Proof.
  intros Hs [Hpegs Hfb]. split; [done|].
  destruct (decide (None ∈ guess_state r)); [done|].
  unfold row_feedback in *. by rewrite Hs.
Qed.

Lemma tidy_rows_secret (st st' : gui) (rs : list row_state) :
  secret st' = secret st ->
  Forall (fun r => row_drawn st r /\ left_filled (guess_state r)) rs ->
  Forall (fun r => row_drawn st' r /\ left_filled (guess_state r)) rs.
Proof.
  intros Hs Hrs. eapply Forall_impl; [exact Hrs|]. intros r [Hd Hl].
  split; [|done]. by apply (row_drawn_secret st).
Qed.

Lemma row_drawn_blank (st : gui) (r : row_state) :
  guess_state r = py_repeat None CODE_LENGTH ->
  peg_fill r = replicate 4 LIGHTGRAY -> fb_fill r = replicate 4 LIGHTGRAY ->
  row_drawn st r /\ left_filled (guess_state r).
Proof.
  intros Hgs Hpf Hfb. split; [split|].
  - by rewrite Hgs, Hpf.
  - rewrite Hgs. by rewrite decide_True by (by left).
  - rewrite Hgs. by exists [], 4%nat.
Qed.

Lemma tidy_with_dialog (st : gui) (title msg : string) :
  tidy st -> tidy (with_dialog st title msg).
Proof. intros [Hrows Hstatus]. by split. Qed.

Lemma tidy_init (logo : bool) (g : rng) (st : gui) (g' : rng) :
  __init__ logo g = Ok (st, g') -> tidy st.
Proof.
  destruct logo; [|by rewrite init_without_logo]. rewrite init_with_logo.
  destruct (generate_code COLORS CODE_LENGTH g) as [[code g1]|e]; [|done].
  rewrite bind_Ok. cbv beta iota. intros [= <- _]. rewrite create_rows_eq.
  split; [|reflexivity].
  apply (Forall_replicate _ 10 new_row). by apply row_drawn_blank.
Qed.

Lemma tidy_reset_game (st : gui) (g : rng) (st' : gui) (g' : rng) :
  wf st -> _reset_game st g = Ok (st', g') -> tidy st'.
Proof.
  intros Hwf. unfold _reset_game.
  destruct (generate_code COLORS CODE_LENGTH g) as [[code g1]|e]; [|done].
  rewrite bind_Ok. cbv beta iota. intros [= <- _].
  split; [|reflexivity]. simpl rows.
  apply Forall_fmap. eapply Forall_impl; [apply (wf_rows_ok st Hwf)|].
  intros r (Hpf & _ & Hfb). unfold len in *. apply row_drawn_blank; simpl.
  - done.
  - rewrite (const_fmap _ _ LIGHTGRAY) by done.
    by replace (length (peg_fill r)) with 4%nat by (unfold CODE_LENGTH in *; lia).
  - rewrite (const_fmap _ _ LIGHTGRAY) by done.
    by replace (length (fb_fill r)) with 4%nat by lia.
Qed.

Lemma tidy_palette_click_body (color : string) (st st' : gui) (k : control) :
  wf st -> tidy st -> palette_click_body color st = Ok (st', k) -> tidy st'.
Proof.
  intros Hwf [Hrows Hstatus] Hbody. destruct (game_over st) eqn:Hopen.
  { unfold palette_click_body in Hbody. rewrite Hopen in Hbody.
    injection Hbody as <- _. by split. }
  pose proof (wf_open st Hwf Hopen) as Hlt. pose proof (wf_try st Hwf) as Htry.
  destruct (palette_click_body_drawn color st Hwf Hopen)
    as (row & pos & Hrow & Hok & Hsolved & Hidx & Hpos & Hcase).
  destruct (Forall_lookup_1 _ _ _ _ Hrows Hrow) as [[Hpegs Hfb] Hleft].
  rewrite decide_True in Hfb by (by eapply list_elem_of_lookup_2).
  assert (peg_fill (placed color pos row)
          = slot_fill <$> guess_state (placed color pos row)) as Hpegs1.
  { simpl. by rewrite list_fmap_insert, Hpegs. }
  assert (left_filled (guess_state (placed color pos row))) as Hleft1
    by (by apply left_filled_insert).
  destruct Hcase as [[Hin Heq]|(Hnin & black & white & fb & _ & _ & Hfeed & Heq)];
    rewrite Heq in Hbody.
  - injection Hbody as <- _. split; [|done].
    apply Forall_insert; [done|]. split; [split|]; try done.
    by rewrite decide_True by done.
  - assert (forall st1 b, secret st1 = secret st ->
              row_drawn st1 (with_solved (scored color pos row (feedback_color <$> fb)) b)
              /\ left_filled
                   (guess_state
                      (with_solved (scored color pos row (feedback_color <$> fb)) b)))
      as Hscored.
    { intros st1 b Hs. split; [|done]. apply (row_drawn_secret st); [done|].
      split; [done|]. simpl guess_state. simpl fb_fill.
      by rewrite decide_False by done. }
    unfold scored_result in Hbody.
    destruct (decide (black = CODE_LENGTH)) as [Hwin|Hmiss];
      [|destruct (decide (current_try st + 1 >= MAX_TRIES)) as [Hlast|Hmore]];
      injection Hbody as <- _.
    + split; [|done].
      apply Forall_insert; [done|]. by apply Hscored.
    + split.
      * apply Forall_insert; [done|]. by apply (Hscored _ (solved row)).
      * simpl. rewrite Hstatus. unfold status_text. simpl.
        by replace (Z.min (current_try st + 1 + 1) MAX_TRIES)
          with (Z.min (current_try st + 1) MAX_TRIES) by lia.
    + split.
      * apply Forall_insert; [done|]. by apply (Hscored _ (solved row)).
      * unfold status_text. simpl.
        by replace (Z.min (current_try st + 1 + 1) MAX_TRIES)
          with (current_try st + 1 + 1) by lia.
Qed.

Lemma tidy_palette_click (color : string) (answer : bool) (st : gui) (g : rng)
    (st' : gui) (g' : rng) :
  wf st -> tidy st -> _palette_click color answer st g = Ok (st', g') -> tidy st'.
Proof.
  intros Hwf Htidy. unfold _palette_click.
  destruct (wf_palette_click_body color st Hwf) as (st1 & k & Hbody & Hwf1).
  rewrite Hbody, bind_Ok. cbv beta iota.
  pose proof (tidy_palette_click_body color st st1 k Hwf Htidy Hbody) as Htidy1.
  destruct (secret_names_ok st1 Hwf1) as [names Hnames].
  destruct k.
  - by intros [= <- _].
  - unfold _reveal_win. rewrite Hnames, bind_Ok. destruct answer.
    + apply tidy_reset_game. by apply wf_with_dialog.
    + intros [= <- _]. by apply tidy_with_dialog.
  - unfold _reveal_loss. rewrite Hnames, bind_Ok. destruct answer.
    + apply tidy_reset_game. by apply wf_with_dialog.
    + intros [= <- _]. by apply tidy_with_dialog.
Qed.

Lemma reachable_tidy (st : gui) : reachable st -> tidy st.
Proof.
  induction 1 as [logo g st g' Hinit|st color answer g st' g' Hreach IH _ Hclick].
  - by eapply tidy_init.
  - eapply tidy_palette_click; [by apply reachable_wf|done..].
Qed.

(** * One click, one peg *)

Lemma palette_click_body_frame (color : string) (st : gui) :
  wf st -> game_over st = false ->
  exists row (pos : nat) row' st' k,
    rows st !! Z.to_nat (current_try st) = Some row
    /\ py_index None (guess_state row) = Ok (Z.of_nat pos)
    /\ guess_state row !! pos = Some None
    /\ palette_click_body color st = Ok (st', k)
    /\ secret st' = secret st /\ dialogs st' = dialogs st
    /\ rows st' = <[Z.to_nat (current_try st) := row']> (rows st)
    /\ guess_state row' = <[pos := Some color]> (guess_state row).
Proof.
  intros Hwf Hopen.
  destruct (palette_click_body_drawn color st Hwf Hopen)
    as (row & pos & Hrow & _ & _ & Hidx & Hpos & Hcase).
  exists row, pos.
  destruct Hcase as [[_ Heq]|(_ & black & white & fb & _ & _ & _ & Heq)].
  { by eexists _, _, _. }
  unfold scored_result in Heq.
  destruct (decide (black = CODE_LENGTH));
    [|destruct (decide (current_try st + 1 >= MAX_TRIES))];
    by eexists _, _, _.
Qed.

Lemma py_index_first `{EqDecision A} (x : A) (xs : list A) (pos : nat) :
  py_index x xs = Ok (Z.of_nat pos) ->
  xs !! pos = Some x /\ forall j, (j < pos)%nat -> xs !! j <> Some x.
Proof.
  revert pos. induction xs as [|y ys IH]; intros pos Hidx; [done|].
  simpl in Hidx. destruct (decide (y = x)) as [->|Hne].
  - injection Hidx as Hidx. assert (pos = 0%nat) as -> by lia.
    split; [done|]. intros j Hj. lia.
  - destruct (py_index x ys) as [i|e] eqn:Hi; [|done]. rewrite bind_Ok in Hidx.
    injection Hidx as Hidx.
    assert (0 <= i) as Hi0.
    { clear -Hi. revert i Hi. induction ys as [|z zs IHz]; intros i Hi; [done|].
      simpl in Hi. destruct (decide (z = x)); [injection Hi as <-; lia|].
      destruct (py_index x zs) as [i'|]; [|done]. rewrite bind_Ok in Hi.
      injection Hi as <-. specialize (IHz i' eq_refl). lia. }
    destruct pos as [|pos]; [lia|].
    destruct (IH pos) as [Hpos Hfirst]; [f_equal; lia|].
    split; [done|]. intros [|j] Hj; simpl; [congruence|]. apply Hfirst. lia.
Qed.

(** X10: on a reachable session in progress, a palette click for which the
    player does not go on to a new game puts the clicked colour into the
    first empty slot of the current row and changes no other slot, no other
    row's guess, neither the secret nor the random generator. *)
Theorem click_fills_first_empty_slot (st : gui) (color : string) (g : rng) :
  reachable st -> session_state st = InProgress ->
  exists row (pos : nat) st',
    rows st !! Z.to_nat (current_try st) = Some row
    /\ guess_state row !! pos = Some None
    /\ (forall j, (j < pos)%nat -> guess_state row !! j <> Some None)
    /\ _palette_click color false st g = Ok (st', g)
    /\ secret st' = secret st
    /\ (guess_state <$> rows st')
       = <[Z.to_nat (current_try st) := <[pos := Some color]> (guess_state row)]>
           (guess_state <$> rows st).
Proof.
  intros Hwf%reachable_wf Hopen%session_in_progress.
  destruct (palette_click_body_frame color st Hwf Hopen)
    as (row & pos & row' & st1 & k & Hrow & Hidx & Hpos & Hbody & Hsec & _ & Hrows & Hgs).
  destruct (py_index_first _ _ _ Hidx) as [_ Hfirst].
  assert (wf st1) as Hwf1.
  { destruct (wf_palette_click_body color st Hwf) as (st2 & k2 & Hbody2 & Hwf2).
    congruence. }
  destruct (secret_names_ok st1 Hwf1) as [names Hnames].
  assert (exists st', _palette_click color false st g = Ok (st', g)
                      /\ secret st' = secret st1 /\ rows st' = rows st1)
    as (st' & Hclick & Hsec' & Hrows').
  { unfold _palette_click, _reveal_win, _reveal_loss.
    rewrite Hbody, bind_Ok. cbv beta iota. rewrite Hnames, bind_Ok.
    destruct k; by eexists. }
  exists row, pos, st'. do 4 (split; [done|]). split; [congruence|].
  by rewrite Hrows', Hrows, list_fmap_insert, Hgs.
Qed.

(** An instance: the fourth peg of the second try. *)
Lemma click_fills_first_empty_slot_witness :
  reachable before_win /\ session_state before_win = InProgress
  /\ exists row (pos : nat) st',
       rows before_win !! Z.to_nat (current_try before_win) = Some row
       /\ guess_state row !! pos = Some None
       /\ (forall j, (j < pos)%nat -> guess_state row !! j <> Some None)
       /\ _palette_click "#ccf300" false before_win tape0 = Ok (st', tape0)
       /\ secret st' = secret before_win
       /\ (guess_state <$> rows st')
          = <[Z.to_nat (current_try before_win)
              := <[pos := Some "#ccf300"%string]> (guess_state row)]>
              (guess_state <$> rows before_win).
Proof.
  split; [apply reachable_before_win|]. split; [vm_compute; reflexivity|].
  apply (click_fills_first_empty_slot before_win "#ccf300" tape0);
    [apply reachable_before_win|vm_compute; reflexivity].
Defined.

(** ** Pegs placed *)

Lemma filter_is_Some_insert (gs : list (option string)) (pos : nat) (c : string) :
  gs !! pos = Some None ->
  length (filter is_Some (<[pos := Some c]> gs)) = S (length (filter is_Some gs)).
Proof.
  intros Hpos. apply lookup_lt_Some in Hpos as Hlt.
  rewrite insert_take_drop by done.
  rewrite <- (take_drop_middle gs pos None Hpos) at 3.
  rewrite !filter_app, !filter_cons, !length_app.
  rewrite decide_True by done.
  rewrite decide_False by (by intros [? ?]). simpl. lia.
Qed.

Lemma pegs_placed_insert (rs : list row_state) (n pos : nat) (row row' : row_state)
    (c : string) :
  rs !! n = Some row -> guess_state row !! pos = Some None ->
  guess_state row' = <[pos := Some c]> (guess_state row) ->
  length (filter is_Some (mjoin (guess_state <$> <[n := row']> rs)))
  = S (length (filter is_Some (mjoin (guess_state <$> rs)))).
Proof.
  intros Hn Hpos Hgs. apply lookup_lt_Some in Hn as Hlt.
  rewrite insert_take_drop by done.
  rewrite <- (take_drop_middle rs n row Hn) at 3.
  rewrite !fmap_app, !fmap_cons, !join_app. simpl mjoin.
  rewrite !filter_app, !length_app, Hgs, filter_is_Some_insert by done. lia.
Qed.

Lemma length_join_rows (rs : list row_state) :
  Forall row_ok rs ->
  length (mjoin (guess_state <$> rs)) = (4 * length rs)%nat.
Proof.
  induction 1 as [|r rs (_ & Hgs & _) _ IH]; [done|].
  rewrite fmap_cons.
  change (mjoin (guess_state r :: (guess_state <$> rs)))
    with (guess_state r ++ mjoin (guess_state <$> rs)).
  rewrite length_app, IH. unfold len, CODE_LENGTH in Hgs. simpl length. lia.
Qed.

Lemma pegs_placed_in_progress (st : gui) :
  wf st -> game_over st = false ->
  (Z.of_nat (pegs_placed st) < CODE_LENGTH * MAX_TRIES).
Proof.
  intros Hwf Hopen.
  destruct (wf_current_row st Hwf Hopen) as (row & pos & Hrow & _ & _ & _ & Hpos).
  assert (None ∈ mjoin (guess_state <$> rows st)) as Hin.
  { apply list_elem_of_join. exists (guess_state row). split.
    - by eapply list_elem_of_lookup_2.
    - apply list_elem_of_fmap. exists row. split; [done|].
      by eapply list_elem_of_lookup_2. }
  pose proof (length_filter_lt is_Some _ None Hin) as Hshort.
  rewrite (length_join_rows _ (wf_rows_ok st Hwf)) in Hshort.
  pose proof (wf_rows_len st Hwf) as Hrows. unfold len in Hrows.
  unfold pegs_placed, CODE_LENGTH, MAX_TRIES in *.
  specialize (Hshort ltac:(by intros [? ?])). lia.
Qed.

Lemma play_declined_pegs (colors : list string) (st : gui) (g : rng) (st' : gui)
    (g' : rng) :
  wf st -> play (declined colors) st g = Ok (st', g') -> game_over st' = false ->
  pegs_placed st' = (pegs_placed st + length colors)%nat.
Proof.
  revert st g. induction colors as [|c colors IH]; intros st g Hwf Hplay Hopen'.
  { injection Hplay as <- _. simpl length. lia. }
  simpl in Hplay.
  destruct (wf_palette_click c false st g Hwf) as (st1 & g1 & Hclick & Hwf1).
  rewrite Hclick, bind_Ok in Hplay. cbv beta iota in Hplay.
  rewrite (IH st1 g1 Hwf1 Hplay Hopen'). simpl length.
  enough (pegs_placed st1 = S (pegs_placed st)) by lia.
  destruct (game_over st) eqn:Hopen.
  { exfalso. unfold _palette_click, palette_click_body in Hclick.
    rewrite Hopen, bind_Ok in Hclick. injection Hclick as <- <-.
    clear IH. revert g Hplay. induction colors as [|c' colors IHc]; intros g Hplay.
    - injection Hplay as <- _. congruence.
    - simpl in Hplay. unfold _palette_click, palette_click_body in Hplay.
      rewrite Hopen, !bind_Ok in Hplay. by apply (IHc g). }
  destruct (palette_click_body_frame c st Hwf Hopen)
    as (row & pos & row' & st2 & k & Hrow & _ & Hpos & Hbody & _ & _ & Hrows & Hgs).
  assert (wf st2) as Hwf2.
  { destruct (wf_palette_click_body c st Hwf) as (st3 & k3 & Hbody3 & Hwf3).
    congruence. }
  destruct (secret_names_ok st2 Hwf2) as [names Hnames].
  assert (rows st1 = rows st2) as Hrows1.
  { unfold _palette_click, _reveal_win, _reveal_loss in Hclick.
    rewrite Hbody, bind_Ok in Hclick. cbv beta iota in Hclick.
    rewrite Hnames, bind_Ok in Hclick. destruct k; by injection Hclick as <- _. }
  unfold pegs_placed. rewrite Hrows1, Hrows.
  by apply (pegs_placed_insert _ _ pos row row' c).
Qed.

(** X11: a game takes at most CODE_LENGTH * MAX_TRIES pegs. On a reachable
    window, once the pegs on the board and the clicks that follow add up to
    that many, and the player starts no new game, the session is over (Won or
    Lost); as long as it is in progress, every click has placed one peg. *)
Theorem game_over_within_forty_pegs (st : gui) (colors : list string) (g : rng) :
  reachable st ->
  exists st' g',
    play (declined colors) st g = Ok (st', g')
    /\ (session_state st' = InProgress ->
        pegs_placed st' = (pegs_placed st + length colors)%nat)
    /\ (CODE_LENGTH * MAX_TRIES <= Z.of_nat (pegs_placed st) + len colors ->
        session_state st' <> InProgress).
Proof.
  intros Hwf%reachable_wf.
  assert (exists st' g', play (declined colors) st g = Ok (st', g') /\ wf st')
    as (st' & g' & Hplay & Hwf').
  { revert st g Hwf. induction colors as [|c colors IH]; intros st g Hwf.
    - by exists st, g.
    - simpl. destruct (wf_palette_click c false st g Hwf) as (st1 & g1 & -> & Hwf1).
      rewrite bind_Ok. cbv beta iota. by apply IH. }
  exists st', g'. split; [done|]. split.
  - intros Hopen%session_in_progress. by eapply play_declined_pegs.
  - intros Hmany Hopen%session_in_progress.
    pose proof (play_declined_pegs colors st g st' g' Hwf Hplay Hopen) as Hpegs.
    pose proof (pegs_placed_in_progress st' Hwf' Hopen). unfold len in *. lia.
Qed.

(** An instance: forty clicks from the one missed row and three pegs. *)
Lemma game_over_within_forty_pegs_witness :
  reachable before_win
  /\ exists st' g',
       play (declined (replicate 40 "#38ffff"%string)) before_win tape0 = Ok (st', g')
       /\ (session_state st' = InProgress ->
           pegs_placed st'
           = (pegs_placed before_win + length (replicate 40 "#38ffff"%string))%nat)
       /\ (CODE_LENGTH * MAX_TRIES
           <= Z.of_nat (pegs_placed before_win) + len (replicate 40 "#38ffff"%string) ->
           session_state st' <> InProgress).
Proof.
  split; [apply reachable_before_win|].
  apply (game_over_within_forty_pegs before_win (replicate 40 "#38ffff"%string) tape0).
  apply reachable_before_win.
Defined.

(** * Invariants of the reachable windows *)

(** X12: on every reachable window the guess pegs of each row show its
    slots (the colour placed, gray for an empty slot), and its feedback pegs
    are gray while the row is incomplete and show the coloured
    [format_feedback] of its [check_guess] score against the current secret
    once it is complete. *)
Theorem window_shows_board (st : gui) :
  reachable st -> Forall (row_drawn st) (rows st).
Proof.
  intros Htidy%reachable_tidy.
  eapply Forall_impl; [apply (tidy_rows st Htidy)|]. by intros r [? _].
Qed.

(** An instance: the board with nine missed rows and three pegs. *)
Lemma window_shows_board_witness :
  reachable before_loss /\ Forall (row_drawn before_loss) (rows before_loss).
Proof.
  split; [apply reachable_before_loss|].
  apply (window_shows_board before_loss reachable_before_loss).
Defined.

(** X13: the board fills in order: in every row of a reachable window the
    colours come first and the empty slots after them, the rows before the
    current one are complete, and the rows after it are empty. *)
Theorem board_fills_in_order (st : gui) (i : nat) (r : row_state) :
  reachable st -> rows st !! i = Some r ->
  left_filled (guess_state r)
  /\ (Z.of_nat i < current_try st -> None ∉ guess_state r)
  /\ (current_try st < Z.of_nat i -> guess_state r = [None; None; None; None]).
Proof.
  intros Hreach Hr. pose proof (reachable_wf st Hreach) as Hwf.
  pose proof (reachable_tidy st Hreach) as Htidy.
  split; [|split].
  - by destruct (Forall_lookup_1 _ _ _ _ (tidy_rows st Htidy) Hr).
  - intros Hi. by destruct (wf_past st Hwf i r Hr Hi).
  - intros Hi. by destruct (wf_future st Hwf i r Hr Hi) as [-> _].
Qed.

(** An instance: the second row of the board before the winning click. *)
Lemma board_fills_in_order_witness :
  reachable before_win
  /\ exists r, rows before_win !! 1%nat = Some r
       /\ left_filled (guess_state r)
       /\ (Z.of_nat 1 < current_try before_win -> None ∉ guess_state r)
       /\ (current_try before_win < Z.of_nat 1 ->
           guess_state r = [None; None; None; None]).
Proof.
  split; [apply reachable_before_win|].
  eexists. split; [vm_compute; reflexivity|].
  apply (board_fills_in_order before_win 1); [apply reachable_before_win|].
  vm_compute; reflexivity.
Defined.

(** X14: on every reachable window the status label reads the number of the
    try being played, counted from 1 and never more than [MAX_TRIES], then
    " / " and [MAX_TRIES]; after a loss it stays at the last try. *)
Theorem status_label_shows_try (st : gui) :
  reachable st ->
  status_label st
  = pretty (Z.min (current_try st + 1) MAX_TRIES) +:+ " / " +:+ pretty MAX_TRIES.
Proof. intros Htidy%reachable_tidy. apply (tidy_status st Htidy). Qed.

(** An instance: the tenth try. *)
Lemma status_label_shows_try_witness :
  reachable before_loss
  /\ status_label before_loss
     = pretty (Z.min (current_try before_loss + 1) MAX_TRIES) +:+ " / "
       +:+ pretty MAX_TRIES.
Proof.
  split; [apply reachable_before_loss|].
  apply (status_label_shows_try before_loss reachable_before_loss).
Defined.

(** X15: on every reachable window the secret has [CODE_LENGTH] colours of
    the palette, there are [MAX_TRIES] rows of [CODE_LENGTH] slots and
    guess pegs and four feedback pegs, and the attempt index stays between
    0 and [MAX_TRIES]: below [MAX_TRIES] while the session is in progress,
    so that [rows[current_try]] exists, and equal to it exactly when the
    session is Lost. *)
Theorem reachable_window_shape (st : gui) :
  reachable st ->
  len (secret st) = CODE_LENGTH /\ Forall (fun c => c ∈ COLORS) (secret st)
  /\ len (rows st) = MAX_TRIES
  /\ Forall (fun r => len (peg_fill r) = CODE_LENGTH
                      /\ len (guess_state r) = CODE_LENGTH /\ len (fb_fill r) = 4)
       (rows st)
  /\ 0 <= current_try st <= MAX_TRIES
  /\ (session_state st = InProgress -> current_try st < len (rows st))
  /\ (current_try st = MAX_TRIES <-> session_state st = Lost).
Proof.
  intros Hwf%reachable_wf.
  split; [apply (wf_secret_len st Hwf)|]. split; [apply (wf_secret_colors st Hwf)|].
  split; [apply (wf_rows_len st Hwf)|]. split; [apply (wf_rows_ok st Hwf)|].
  pose proof (wf_try st Hwf) as Htry. split; [done|]. split.
  - intros Hopen%session_in_progress. rewrite (wf_rows_len st Hwf).
    by apply (wf_open st Hwf).
  - rewrite (session_state_wf st Hwf). pose proof (wf_open st Hwf) as Hopen.
    destruct (game_over st).
    + case_bool_decide; split; (done || lia).
    + split; [|done]. intros Heq. specialize (Hopen eq_refl). lia.
Qed.

(** An instance: the game won at the second try. *)
Lemma reachable_window_shape_witness :
  reachable won_game
  /\ len (secret won_game) = CODE_LENGTH
  /\ Forall (fun c => c ∈ COLORS) (secret won_game)
  /\ len (rows won_game) = MAX_TRIES
  /\ Forall (fun r => len (peg_fill r) = CODE_LENGTH
                      /\ len (guess_state r) = CODE_LENGTH /\ len (fb_fill r) = 4)
       (rows won_game)
  /\ 0 <= current_try won_game <= MAX_TRIES
  /\ (session_state won_game = InProgress -> current_try won_game < len (rows won_game))
  /\ (current_try won_game = MAX_TRIES <-> session_state won_game = Lost).
Proof.
  split; [apply reachable_won_game|].
  apply (reachable_window_shape won_game reachable_won_game).
Defined.

(** * Start-up, the end of a game, and clicks the handler turns down *)

(** X16: [__init__] opens the logo file before anything else. When the
    file is missing it raises FileNotFoundError and no window comes to be;
    when it is there then, whatever the generator draws, [__init__] gives a
    session in progress at attempt index 0, with the code that
    [generate_code(COLORS, CODE_LENGTH)] draws, [MAX_TRIES] blank rows, the
    label "1 / 10" and no dialog shown. *)
Theorem init_fresh (g : rng) :
  __init__ false g = Raise (FileNotFoundError "mastermind.png")
  /\ exists st g',
       __init__ true g = Ok (st, g')
       /\ generate_code COLORS CODE_LENGTH g = Ok (secret st, g')
       /\ session_state st = InProgress /\ current_try st = 0
       /\ len (rows st) = MAX_TRIES
       /\ Forall (fun r => guess_state r = [None; None; None; None]
                           /\ solved r = false
                           /\ peg_fill r = replicate 4 LIGHTGRAY
                           /\ fb_fill r = replicate 4 LIGHTGRAY) (rows st)
       /\ status_label st = "1 / 10"%string /\ dialogs st = [].
Proof.
  split; [apply init_without_logo|]. rewrite init_with_logo.
  destruct (generate_code_ok COLORS CODE_LENGTH g) as (code & g' & Hgen & _); [done|].
  rewrite Hgen, bind_Ok. cbv beta iota. eexists _, _. split; [reflexivity|].
  rewrite create_rows_eq. split; [done|]. split; [done|]. split; [done|].
  split; [done|]. split; [|done].
  apply (Forall_replicate _ 10 new_row). by repeat split.
Qed.

(** X17: a click on a session that is not over but whose current row is
    already full is ignored: the window and the generator stay as they are. *)
Theorem click_on_full_row_ignored (st : gui) (row : row_state) (color : string)
    (answer : bool) (g : rng) :
  game_over st = false -> 0 <= current_try st ->
  rows st !! Z.to_nat (current_try st) = Some row ->
  None ∉ guess_state row ->
  _palette_click color answer st g = Ok (st, g).
Proof.
  intros Hopen Htry Hrow Hfull. unfold _palette_click, palette_click_body.
  rewrite Hopen, (py_getitem_ok _ _ row Htry Hrow), bind_Ok.
  by rewrite (py_index_not_elem None _ Hfull).
Qed.

(** An instance: a board whose only row is full. *)
Lemma click_on_full_row_ignored_witness :
  _palette_click "#38ffff" true
    (Gui ["#38ffff"]%string 0
         [RowState ["#ff6a00"]%string [Some "#ff6a00"%string] ["#ff5555"]%string false]
         false EmptyString []) tape0
  = Ok (Gui ["#38ffff"]%string 0
            [RowState ["#ff6a00"]%string [Some "#ff6a00"%string] ["#ff5555"]%string false]
            false EmptyString [], tape0).
Proof.
  apply (click_on_full_row_ignored _
           (RowState ["#ff6a00"]%string [Some "#ff6a00"%string] ["#ff5555"]%string false)).
  - reflexivity.
  - simpl. lia.
  - reflexivity.
  - vm_compute. by intros [[=]|[]%elem_of_nil]%elem_of_cons.
Defined.

(** X18: if the game-over flag is not set while the attempt index is past
    the last row, a click raises IndexError: it is the flag set on a loss
    that keeps [rows[current_try]] within range. *)
Theorem click_past_last_row_raises (st : gui) (color : string) (answer : bool)
    (g : rng) :
  game_over st = false -> len (rows st) <= current_try st ->
  _palette_click color answer st g = Raise (IndexError "list index out of range").
Proof.
  intros Hopen Hpast. unfold _palette_click, palette_click_body, py_getitem, norm_index.
  rewrite Hopen. unfold len in *.
  rewrite (bool_decide_eq_false_2 (current_try st < 0)) by lia.
  by rewrite bool_decide_eq_false_2 by lia.
Qed.

(** An instance: the board after a loss, with the flag cleared. *)
Lemma click_past_last_row_raises_witness :
  _palette_click "#38ffff" false (Gui ["#38ffff"]%string 1
    [RowState ["#ff6a00"]%string [Some "#ff6a00"%string] ["#ff5555"]%string false]
    false EmptyString []) tape0
  = Raise (IndexError "list index out of range").
Proof.
  apply click_past_last_row_raises; [reflexivity|vm_compute; discriminate].
Defined.

(** X19: when a click ends the game (a win or a loss) and the player
    answers yes to "Play again?", the handler returns a new game: a code
    drawn by [generate_code(COLORS, CODE_LENGTH)], the session in progress at
    attempt index 0, every row cleared, and the dialog that was shown added
    to those shown before. *)
Theorem play_again_starts_new_game (st st1 : gui) (k : control) (color : string)
    (g : rng) :
  reachable st -> palette_click_body color st = Ok (st1, k) -> k <> Return ->
  exists st' g' shown,
    _palette_click color true st g = Ok (st', g')
    /\ generate_code COLORS CODE_LENGTH g = Ok (secret st', g')
    /\ session_state st' = InProgress /\ current_try st' = 0
    /\ Forall (fun r => guess_state r = [None; None; None; None] /\ solved r = false)
         (rows st')
    /\ dialogs st' = dialogs st1 ++ [shown].
Proof.
  intros Hwf%reachable_wf Hbody Hk.
  assert (wf st1) as Hwf1.
  { destruct (wf_palette_click_body color st Hwf) as (st2 & k2 & Hbody2 & Hwf2).
    congruence. }
  destruct (secret_names_ok st1 Hwf1) as [names Hnames].
  assert (exists title msg,
            _palette_click color true st g
            = _reset_game (with_dialog st1 title msg) g) as (title & msg & Hclick).
  { unfold _palette_click, _reveal_win, _reveal_loss.
    rewrite Hbody, bind_Ok. cbv beta iota. destruct k; [done|..];
      rewrite Hnames, bind_Ok; by eexists _, _. }
  destruct (wf_reset_game (with_dialog st1 title msg) g (wf_with_dialog _ _ _ Hwf1))
    as (st' & g' & Hreset & Hwf' & Htry & Hopen & Hblank & Hdialogs).
  exists st', g', (title, msg). rewrite Hclick. split; [done|]. split.
  { unfold _reset_game in Hreset.
    destruct (generate_code COLORS CODE_LENGTH g) as [[code g1]|e]; [|done].
    rewrite bind_Ok in Hreset. cbv beta iota in Hreset. by injection Hreset as <- <-. }
  split; [by apply session_in_progress|]. split; [done|]. split; [|done].
  eapply Forall_impl; [exact Hblank|]. by intros r (_ & -> & ->).
Qed.

(** An instance: the winning click on the second try, answered by yes. *)
Lemma play_again_starts_new_game_witness :
  reachable before_win
  /\ exists st1,
       palette_click_body "#38ffff" before_win = Ok (st1, RevealWin)
       /\ exists st' g' shown,
            _palette_click "#38ffff" true before_win tape0 = Ok (st', g')
            /\ generate_code COLORS CODE_LENGTH tape0 = Ok (secret st', g')
            /\ session_state st' = InProgress /\ current_try st' = 0
            /\ Forall (fun r => guess_state r = [None; None; None; None]
                                /\ solved r = false) (rows st')
            /\ dialogs st' = dialogs st1 ++ [shown].
Proof.
  split; [apply reachable_before_win|].
  eexists. split; [vm_compute; reflexivity|].
  eapply (play_again_starts_new_game before_win _ RevealWin "#38ffff" tape0);
    [apply reachable_before_win|vm_compute; reflexivity|discriminate].
Defined.

(** * What a score tells about the guess *)

Lemma py_sum_fmap_le_eq {B : Type} (f h : B -> Z) (l : list B) :
  (forall x, x ∈ l -> f x <= h x) -> py_sum (f <$> l) = py_sum (h <$> l) ->
  forall x, x ∈ l -> f x = h x.
Proof.
  induction l as [|y l IH]; intros Hle Hsum x Hx; [by apply elem_of_nil in Hx|].
  rewrite !py_sum_fmap_cons in Hsum.
  assert (f y <= h y) by (apply Hle; left).
  assert (py_sum (f <$> l) <= py_sum (h <$> l))
    by (apply py_sum_fmap_le; intros; apply Hle; by right).
  apply elem_of_cons in Hx as [->|Hx]; [lia|].
  apply IH; [intros; apply Hle; by right|lia|done].
Qed.

Section score_facts.
Context `{Countable A}.
Implicit Types (secret guess s g : list A) (c : A).

Lemma py_count_perm c s s' : s ≡ₚ s' -> py_count c s = py_count c s'.
Proof. intros Hp. unfold py_count, len. by rewrite Hp. Qed.

Lemma py_count_elem c s : c ∈ s -> 1 <= py_count c s.
Proof.
  induction s as [|x s IH]; intros Hc; [by apply elem_of_nil in Hc|].
  rewrite py_count_cons. pose proof (py_count_nonneg c s).
  apply elem_of_cons in Hc as [->|Hc].
  - rewrite decide_True by done. lia.
  - specialize (IH Hc). destruct (decide (x = c)); lia.
Qed.

Lemma total_perm s s' g g' : s ≡ₚ s' -> g ≡ₚ g' -> total_of s g = total_of s' g'.
Proof.
  intros Hs Hg. unfold total_of.
  rewrite (list_to_set_perm_L (C:=gset A) g g' Hg).
  apply py_sum_fmap_ext. intros c _.
  by rewrite (py_count_perm c s s' Hs), (py_count_perm c g g' Hg).
Qed.

Lemma total_self s : total_of s s = len s.
Proof.
  rewrite <- (guess_by_colour s). apply py_sum_fmap_ext. intros c _. lia.
Qed.

Lemma count_by_colour g (X : gset A) :
  list_to_set g ⊆ X ->
  py_sum ((fun c => py_count c g) <$> elements X) = len g.
Proof.
  intros Hsub. rewrite <- (py_sum_fmap_ones g).
  rewrite <- (py_sum_by_class (elements X) g id (fun _ => 1)).
  - apply py_sum_fmap_ext. intros c _. apply py_count_as_sum.
  - apply NoDup_elements.
  - intros x Hx. apply elem_of_elements, Hsub. by apply elem_of_list_to_set.
Qed.

Lemma py_count_count_occ c s :
  py_count c s = Z.of_nat (count_occ (fun x y => decide (x = y)) s c).
Proof.
  induction s as [|x s IH]; [reflexivity|].
  rewrite py_count_cons, IH. simpl. destruct (decide (x = c)); lia.
Qed.

Lemma counts_perm s g : (forall c, py_count c s = py_count c g) -> s ≡ₚ g.
Proof.
  intros Hcount. apply (Permutation_count_occ (fun x y => decide (x = y))).
  intros c. specialize (Hcount c). rewrite !py_count_count_occ in Hcount. lia.
Qed.

Lemma total_full_perm s g :
  length s = length g -> total_of s g = len g -> g ≡ₚ s.
Proof.
  intros Hlen Htotal. symmetry. apply counts_perm.
  set (X := (list_to_set s ∪ list_to_set g : gset A)).
  assert (forall c, c ∈ elements X ->
            Z.min (py_count c s) (py_count c g) = py_count c g) as Hmin.
  { apply py_sum_fmap_le_eq; [intros; lia|].
    rewrite <- (total_over_superset s g X) by set_solver.
    rewrite count_by_colour by set_solver. done. }
  assert (forall c, c ∈ elements X -> py_count c g = py_count c s) as Heq.
  { apply py_sum_fmap_le_eq.
    - intros c Hc. specialize (Hmin c Hc). lia.
    - rewrite !count_by_colour by set_solver. unfold len. lia. }
  intros c. destruct (decide (c ∈ X)) as [Hc|Hc].
  - symmetry. by apply Heq, elem_of_elements.
  - rewrite !py_count_not_elem; [done|..]; intros Hin; apply Hc; unfold X;
      rewrite elem_of_union, !elem_of_list_to_set; auto.
Qed.

(** X20: the number of feedback pegs that are not "empty" does not depend
    on the order of the pegs: rearranging the secret and the guess, each in
    its own way, leaves black + white as it was. *)
Theorem score_total_order_free secret secret' guess guess' (black white : Z) :
  secret ≡ₚ secret' -> guess ≡ₚ guess' ->
  check_guess secret guess = Ok (black, white) ->
  exists black' white',
    check_guess secret' guess' = Ok (black', white')
    /\ black' + white' = black + white.
Proof.
  intros Hs Hg (Hlen & -> & ->)%check_guess_Ok_inv.
  eexists _, _. split.
  - apply check_guess_eq. by rewrite <- Hs, <- Hg.
  - rewrite (total_perm secret secret' guess guess' Hs Hg). lia.
Qed.

(** X21: the score is (0, 0) exactly when secret and guess have the same
    length and no colour of the guess occurs in the secret. *)
Theorem score_zero_iff_no_common_colour secret guess :
  check_guess secret guess = Ok (0, 0)
  <-> length secret = length guess /\ forall c, c ∈ guess -> c ∉ secret.
Proof.
  split.
  - intros (Hlen & Hb & Hw)%check_guess_Ok_inv. split; [done|].
    intros c Hg Hs.
    assert (total_of secret guess = 0) as Htotal by lia.
    assert (Z.min (py_count c secret) (py_count c guess) = 0) as Hmin.
    { symmetry.
      apply (py_sum_fmap_le_eq (fun _ => 0)
               (fun c => Z.min (py_count c secret) (py_count c guess))
               (elements (list_to_set guess : gset A))).
      - intros x _. pose proof (py_count_nonneg x secret).
        pose proof (py_count_nonneg x guess). lia.
      - rewrite py_sum_fmap_zero by done. by rewrite <- Htotal.
      - by apply elem_of_colours. }
    pose proof (py_count_elem c secret Hs). pose proof (py_count_elem c guess Hg). lia.
  - intros [Hlen Hdisj]. rewrite check_guess_eq by done.
    assert (total_of secret guess = 0) as Htotal.
    { apply py_sum_fmap_zero. intros c Hc. apply (proj1 (elem_of_colours guess c)) in Hc.
      rewrite (py_count_not_elem c secret (Hdisj c Hc)).
      pose proof (py_count_nonneg c guess). lia. }
    pose proof (black_nonneg secret guess). pose proof (black_le_total secret guess).
    do 2 f_equal; lia.
Qed.

(** X22: black + white equals the length, so that no feedback peg is
    "empty", exactly when the guess is a rearrangement of the secret. *)
Theorem score_full_iff_rearrangement secret guess (black white : Z) :
  check_guess secret guess = Ok (black, white) ->
  (black + white = len secret <-> guess ≡ₚ secret).
Proof.
  intros (Hlen & -> & ->)%check_guess_Ok_inv. split.
  - intros Hfull. apply total_full_perm; [done|]. unfold len in *. lia.
  - intros Hperm. rewrite (total_perm secret secret guess secret) by done.
    rewrite total_self. lia.
Qed.

End score_facts.

(** An instance: A B B C against B A C B, and both lists turned around. *)
Lemma score_total_order_free_witness :
  ["A"; "B"; "B"; "C"]%string ≡ₚ ["C"; "B"; "B"; "A"]%string
  /\ ["B"; "A"; "D"; "B"]%string ≡ₚ ["B"; "D"; "A"; "B"]%string
  /\ check_guess ["A"; "B"; "B"; "C"]%string ["B"; "A"; "D"; "B"]%string = Ok (0, 3)
  /\ exists black' white',
       check_guess ["C"; "B"; "B"; "A"]%string ["B"; "D"; "A"; "B"]%string
       = Ok (black', white')
       /\ black' + white' = 0 + 3.
Proof.
  assert (["A"; "B"; "B"; "C"]%string ≡ₚ ["C"; "B"; "B"; "A"]%string) as Hs
    by (by apply (Permutation_rev ["A"; "B"; "B"; "C"]%string)).
  assert (["B"; "A"; "D"; "B"]%string ≡ₚ ["B"; "D"; "A"; "B"]%string) as Hg
    by (by apply (Permutation_rev ["B"; "A"; "D"; "B"]%string)).
  split; [exact Hs|]. split; [exact Hg|]. split; [vm_compute; reflexivity|].
  apply (score_total_order_free _ _ _ _ 0 3 Hs Hg). vm_compute; reflexivity.
Defined.

(** An instance: A B B C against a rearrangement of it. *)
Lemma score_full_iff_rearrangement_witness :
  check_guess ["A"; "B"; "B"; "C"]%string ["C"; "B"; "A"; "B"]%string = Ok (1, 3)
  /\ (1 + 3 = len ["A"; "B"; "B"; "C"]%string
      <-> ["C"; "B"; "A"; "B"]%string ≡ₚ ["A"; "B"; "B"; "C"]%string).
Proof.
  split; [vm_compute; reflexivity|].
  apply (score_full_iff_rearrangement ["A"; "B"; "B"; "C"]%string
           ["C"; "B"; "A"; "B"]%string 1 3).
  vm_compute; reflexivity.
Defined.

(** An instance: A B against C D. *)
Lemma score_zero_iff_no_common_colour_witness :
  check_guess ["A"; "B"]%string ["C"; "D"]%string = Ok (0, 0)
  /\ length ["A"; "B"]%string = length ["C"; "D"]%string
  /\ forall c, c ∈ ["C"; "D"]%string -> c ∉ ["A"; "B"]%string.
Proof.
  split; [vm_compute; reflexivity|].
  apply (proj1 (score_zero_iff_no_common_colour ["A"; "B"]%string ["C"; "D"]%string)).
  vm_compute; reflexivity.
Defined.

(** * The layout of a row *)

Lemma for_range_iter {S : Type} (n : Z) (f : S -> S) (s : S) :
  for_range n (fun _ => f) s = Nat.iter (Z.to_nat n) f s.
Proof.
  unfold for_range, seqZ. rewrite foldl_fmap.
  induction (Z.to_nat n) as [|k IH]; [reflexivity|].
  rewrite seq_S, foldl_app, IH. reflexivity.
Qed.

Lemma guess_ovals_iter (d g : Z) (k : nat) :
  Nat.iter k (add_guess_oval d g) ([], 4)
  = ((fun i : nat => Oval (4 + Z.of_nat i * (d + g)) 4
                          (4 + Z.of_nat i * (d + g) + d) (4 + d)) <$> seq 0 k,
     4 + Z.of_nat k * (d + g)).
Proof.
  induction k as [|k IH]; [reflexivity|].
  rewrite Nat.iter_succ, IH, seq_S, fmap_app. simpl. f_equal. lia.
Qed.

Lemma oval_eq (l t r b l' t' r' b' : Z) :
  l = l' -> t = t' -> r = r' -> b = b' -> Oval l t r b = Oval l' t' r' b'.
Proof. by intros -> -> -> ->. Qed.

(** X23: the row's guess canvas holds one oval per slot, all of the peg
    diameter, side by side from x = 4 on with the peg gap between
    neighbours, and every oval lies within the canvas, 4 pixels from its
    edges at least. *)
Theorem guess_ovals_layout (d g n : Z) :
  0 <= d -> 0 <= g ->
  len (guess_ovals_of d g n) = Z.max 0 n
  /\ (forall (i : nat) o, guess_ovals_of d g n !! i = Some o ->
        x_left o = 4 + Z.of_nat i * (d + g) /\ x_right o = x_left o + d
        /\ y_top o = 4 /\ y_bottom o = y_top o + d
        /\ 4 <= x_left o /\ x_right o <= guess_canvas_width d g n - 4
        /\ y_bottom o <= guess_canvas_height d - 4)
  /\ (forall (i j : nat) oi oj,
        guess_ovals_of d g n !! i = Some oi -> guess_ovals_of d g n !! j = Some oj ->
        (i < j)%nat -> x_right oi + g <= x_left oj).
Proof.
  intros Hd Hg. unfold guess_ovals_of.
  rewrite for_range_iter, guess_ovals_iter. simpl fst.
  assert (forall (i : nat) o,
            ((fun i : nat => Oval (4 + Z.of_nat i * (d + g)) 4
                               (4 + Z.of_nat i * (d + g) + d) (4 + d))
               <$> seq 0 (Z.to_nat n)) !! i = Some o ->
            (i < Z.to_nat n)%nat
            /\ o = Oval (4 + Z.of_nat i * (d + g)) 4
                        (4 + Z.of_nat i * (d + g) + d) (4 + d)) as Hlook.
  { intros i o Ho. rewrite list_lookup_fmap in Ho.
    destruct (seq 0 (Z.to_nat n) !! i) as [i'|] eqn:Hi; [|done].
    apply lookup_seq in Hi as [-> Hlt]. by injection Ho as <-. }
  split; [|split].
  - unfold len. rewrite length_fmap, length_seq. lia.
  - intros i o [Hi ->]%Hlook. unfold guess_canvas_width, guess_canvas_height.
    simpl. repeat split; nia.
  - intros i j oi oj [Hi ->]%Hlook [Hj ->]%Hlook Hij. simpl. nia.
Qed.

(** An instance: the game's row, four pegs of 40 pixels, 12 apart. *)
Lemma guess_ovals_layout_witness :
  guess_ovals = [Oval 4 4 44 44; Oval 56 4 96 44; Oval 108 4 148 44; Oval 160 4 200 44]
  /\ len guess_ovals = Z.max 0 CODE_LENGTH
  /\ forall (i : nat) o, guess_ovals !! i = Some o ->
       x_left o = 4 + Z.of_nat i * (LARGE_PEG_DIAM + LARGE_PEG_GAP)
       /\ x_right o = x_left o + LARGE_PEG_DIAM
       /\ y_top o = 4 /\ y_bottom o = y_top o + LARGE_PEG_DIAM
       /\ 4 <= x_left o
       /\ x_right o <= guess_canvas_width LARGE_PEG_DIAM LARGE_PEG_GAP CODE_LENGTH - 4
       /\ y_bottom o <= guess_canvas_height LARGE_PEG_DIAM - 4.
Proof.
  split; [vm_compute; reflexivity|].
  destruct (guess_ovals_layout LARGE_PEG_DIAM LARGE_PEG_GAP CODE_LENGTH)
    as (Hlen & Hin & _); [vm_compute; discriminate..|].
  split; [exact Hlen|exact Hin].
Defined.

(** X24: the feedback block holds four small ovals, row by row (top left,
    top right, bottom left, bottom right: the order in which [_draw_feedback]
    colours them), of the small diameter and the small gap apart; when two
    diameters and the gap fit into the block, all four lie within it, and
    the group is centred up to one pixel. *)
Theorem feedback_ovals_layout (block d g : Z) :
  0 <= d -> 0 <= g -> 2 * d + g <= block ->
  exists x0,
    feedback_ovals_of block d g
    = [Oval x0 x0 (x0 + d) (x0 + d);
       Oval (x0 + d + g) x0 (x0 + 2 * d + g) (x0 + d);
       Oval x0 (x0 + d + g) (x0 + d) (x0 + 2 * d + g);
       Oval (x0 + d + g) (x0 + d + g) (x0 + 2 * d + g) (x0 + 2 * d + g)]
    /\ 0 <= x0 /\ x0 + 2 * d + g <= block
    /\ 0 <= (block - (x0 + 2 * d + g)) - x0 <= 1.
Proof.
  intros Hd Hg Hfit. exists (small_origin block d g). split.
  - unfold feedback_ovals_of, for_range. change (seqZ 0 2) with [0; 1].
    cbn [foldl app]. cbv zeta.
    repeat (apply (f_equal2 cons); [apply oval_eq; lia|]). reflexivity.
  - unfold small_origin. Z.div_mod_to_equations. lia.
Qed.

(** An instance: the game's block of 40 pixels, small pegs of 16, 6 apart. *)
Lemma feedback_ovals_layout_witness :
  0 <= SMALL_PEG_DIAM /\ 0 <= SMALL_PEG_GAP
  /\ 2 * SMALL_PEG_DIAM + SMALL_PEG_GAP <= FEEDBACK_BLOCK_SIZE
  /\ feedback_ovals
     = [Oval 1 1 17 17; Oval 23 1 39 17; Oval 1 23 17 39; Oval 23 23 39 39]
  /\ exists x0,
       feedback_ovals
       = [Oval x0 x0 (x0 + SMALL_PEG_DIAM) (x0 + SMALL_PEG_DIAM);
          Oval (x0 + SMALL_PEG_DIAM + SMALL_PEG_GAP) x0
               (x0 + 2 * SMALL_PEG_DIAM + SMALL_PEG_GAP) (x0 + SMALL_PEG_DIAM);
          Oval x0 (x0 + SMALL_PEG_DIAM + SMALL_PEG_GAP) (x0 + SMALL_PEG_DIAM)
               (x0 + 2 * SMALL_PEG_DIAM + SMALL_PEG_GAP);
          Oval (x0 + SMALL_PEG_DIAM + SMALL_PEG_GAP) (x0 + SMALL_PEG_DIAM + SMALL_PEG_GAP)
               (x0 + 2 * SMALL_PEG_DIAM + SMALL_PEG_GAP)
               (x0 + 2 * SMALL_PEG_DIAM + SMALL_PEG_GAP)]
       /\ 0 <= x0 /\ x0 + 2 * SMALL_PEG_DIAM + SMALL_PEG_GAP <= FEEDBACK_BLOCK_SIZE
       /\ 0 <= (FEEDBACK_BLOCK_SIZE - (x0 + 2 * SMALL_PEG_DIAM + SMALL_PEG_GAP)) - x0 <= 1.
Proof.
  split; [vm_compute; discriminate|]. split; [vm_compute; discriminate|].
  split; [vm_compute; discriminate|]. split; [vm_compute; reflexivity|].
  apply (feedback_ovals_layout FEEDBACK_BLOCK_SIZE SMALL_PEG_DIAM SMALL_PEG_GAP);
    vm_compute; discriminate.
Defined.
